(** * SkinvedAPI: request signing and dispatch

    A shallow embedding of [src/APIskinved.js].  The class talks to three
    libraries: the JavaScript runtime (values, property order,
    [Array.prototype.sort], [Date.now]), Node's [crypto] ([createHmac]) and
    axios (instance defaults, [paramsSerializer], response interceptors).
    Each of them is modelled as far as the class observes it.

    Strings are modelled by [string]; the model is exact for ASCII text,
    where UTF-16 code-unit order, UTF-8 byte order and [ascii] order agree. *)

From Stdlib Require Import ZArith NArith Bool List String Ascii Lia.
From Stdlib Require Import DecimalString Permutation Sorted OrdersEx.
From Stdlib Require Import Init.Byte.
From Stdlib Require DecimalZ DecimalPos.

#[local] Set Warnings "-register-all".
Import ListNotations.

Local Open Scope string_scope.
Local Open Scope list_scope.
Local Open Scope Z_scope.

(** ** SHA-512 and HMAC, as [createHmac('sha512', key)] computes them
    (FIPS 180-4 and RFC 2104), on 64-bit words held in [Z]. *)

Module Sha512.

Definition w64 : Z := 2 ^ 64.
Definition mask64 : Z := w64 - 1.

Definition add64 (x y : Z) : Z := (x + y) mod w64.
Definition not64 (x : Z) : Z := Z.lxor x mask64.
Definition shr (n x : Z) : Z := Z.shiftr x n.
Definition rotr (n x : Z) : Z :=
  Z.lor (Z.shiftr x n) (Z.land (Z.shiftl x (64 - n)) mask64).

Definition Ch (x y z : Z) : Z := Z.lxor (Z.land x y) (Z.land (not64 x) z).
Definition Maj (x y z : Z) : Z :=
  Z.lxor (Z.lxor (Z.land x y) (Z.land x z)) (Z.land y z).
Definition Sigma0 (x : Z) : Z := Z.lxor (Z.lxor (rotr 28 x) (rotr 34 x)) (rotr 39 x).
Definition Sigma1 (x : Z) : Z := Z.lxor (Z.lxor (rotr 14 x) (rotr 18 x)) (rotr 41 x).
Definition sigma0 (x : Z) : Z := Z.lxor (Z.lxor (rotr 1 x) (rotr 8 x)) (shr 7 x).
Definition sigma1 (x : Z) : Z := Z.lxor (Z.lxor (rotr 19 x) (rotr 61 x)) (shr 6 x).

Definition K : list Z := [
    0x428a2f98d728ae22; 0x7137449123ef65cd; 0xb5c0fbcfec4d3b2f; 0xe9b5dba58189dbbc;
    0x3956c25bf348b538; 0x59f111f1b605d019; 0x923f82a4af194f9b; 0xab1c5ed5da6d8118;
    0xd807aa98a3030242; 0x12835b0145706fbe; 0x243185be4ee4b28c; 0x550c7dc3d5ffb4e2;
    0x72be5d74f27b896f; 0x80deb1fe3b1696b1; 0x9bdc06a725c71235; 0xc19bf174cf692694;
    0xe49b69c19ef14ad2; 0xefbe4786384f25e3; 0x0fc19dc68b8cd5b5; 0x240ca1cc77ac9c65;
    0x2de92c6f592b0275; 0x4a7484aa6ea6e483; 0x5cb0a9dcbd41fbd4; 0x76f988da831153b5;
    0x983e5152ee66dfab; 0xa831c66d2db43210; 0xb00327c898fb213f; 0xbf597fc7beef0ee4;
    0xc6e00bf33da88fc2; 0xd5a79147930aa725; 0x06ca6351e003826f; 0x142929670a0e6e70;
    0x27b70a8546d22ffc; 0x2e1b21385c26c926; 0x4d2c6dfc5ac42aed; 0x53380d139d95b3df;
    0x650a73548baf63de; 0x766a0abb3c77b2a8; 0x81c2c92e47edaee6; 0x92722c851482353b;
    0xa2bfe8a14cf10364; 0xa81a664bbc423001; 0xc24b8b70d0f89791; 0xc76c51a30654be30;
    0xd192e819d6ef5218; 0xd69906245565a910; 0xf40e35855771202a; 0x106aa07032bbd1b8;
    0x19a4c116b8d2d0c8; 0x1e376c085141ab53; 0x2748774cdf8eeb99; 0x34b0bcb5e19b48a8;
    0x391c0cb3c5c95a63; 0x4ed8aa4ae3418acb; 0x5b9cca4f7763e373; 0x682e6ff3d6b2b8a3;
    0x748f82ee5defb2fc; 0x78a5636f43172f60; 0x84c87814a1f0ab72; 0x8cc702081a6439ec;
    0x90befffa23631e28; 0xa4506cebde82bde9; 0xbef9a3f7b2c67915; 0xc67178f2e372532b;
    0xca273eceea26619c; 0xd186b8c721c0c207; 0xeada7dd6cde0eb1e; 0xf57d4f7fee6ed178;
    0x06f067aa72176fba; 0x0a637dc5a2c898a6; 0x113f9804bef90dae; 0x1b710b35131c471b;
    0x28db77f523047d84; 0x32caab7b40c72493; 0x3c9ebe0a15c9bebc; 0x431d67c49c100d4c;
    0x4cc5d4becb3e42b6; 0x597f299cfc657e2a; 0x5fcb6fab3ad6faec; 0x6c44198c4a475817 ].

Definition H0 : list Z := [
    0x6a09e667f3bcc908; 0xbb67ae8584caa73b; 0x3c6ef372fe94f82b; 0xa54ff53a5f1d36f1;
    0x510e527fade682d1; 0x9b05688c2b3e6c1f; 0x1f83d9abfb41bd6b; 0x5be0cd19137e2179 ].

Definition block_bytes : nat := 128.

(** Big-endian encoding of [x] on [n] bytes, and decoding. *)
Fixpoint be_bytes (n : nat) (x : Z) : list Z :=
  match n with
  | O => []
  | S n' => (Z.shiftr x (8 * Z.of_nat n')) mod 256 :: be_bytes n' x
  end.

Definition be_word (bs : list Z) : Z :=
  fold_left (fun acc b => acc * 256 + b) bs 0.

(** Padding: the byte 0x80, zeros up to 112 modulo 128, and the bit length
    on 16 bytes. *)
Definition pad (msg : list Z) : list Z :=
  let len := Z.of_nat (List.length msg) in
  let zeros := Z.to_nat ((111 - len) mod 128) in
  msg ++ [128] ++ repeat 0 zeros ++ be_bytes 16 (8 * len).

Fixpoint chunks (fuel size : nat) (l : list Z) : list (list Z) :=
  match fuel with
  | O => []
  | S fuel' =>
      match l with
      | [] => []
      | _ => firstn size l :: chunks fuel' size (skipn size l)
      end
  end.

Definition words_of_block (blk : list Z) : list Z :=
  map be_word (chunks 16 8 blk).

(** The message schedule, kept most recent word first while it grows. *)
Fixpoint extend (n : nat) (rev_w : list Z) : list Z :=
  match n with
  | O => rev_w
  | S n' =>
      let w := add64 (add64 (add64 (sigma1 (nth 1 rev_w 0)) (nth 6 rev_w 0))
                            (sigma0 (nth 14 rev_w 0)))
                     (nth 15 rev_w 0) in
      extend n' (w :: rev_w)
  end.

Definition schedule (blk : list Z) : list Z :=
  rev (extend 64 (rev (words_of_block blk))).

Record regs := Regs { ra : Z; rb : Z; rc : Z; rd : Z; re : Z; rf : Z; rg : Z; rh : Z }.

Definition round (s : regs) (kw : Z * Z) : regs :=
  let t1 := add64 (add64 (add64 (add64 (rh s) (Sigma1 (re s)))
                                (Ch (re s) (rf s) (rg s))) (fst kw)) (snd kw) in
  let t2 := add64 (Sigma0 (ra s)) (Maj (ra s) (rb s) (rc s)) in
  Regs (add64 t1 t2) (ra s) (rb s) (rc s) (add64 (rd s) t1) (re s) (rf s) (rg s).

Definition regs_of (h : list Z) : regs :=
  Regs (nth 0 h 0) (nth 1 h 0) (nth 2 h 0) (nth 3 h 0)
       (nth 4 h 0) (nth 5 h 0) (nth 6 h 0) (nth 7 h 0).

Definition compress (h : list Z) (blk : list Z) : list Z :=
  let s := fold_left round (combine K (schedule blk)) (regs_of h) in
  map (fun p => add64 (fst p) (snd p))
      (combine h [ra s; rb s; rc s; rd s; re s; rf s; rg s; rh s]).

Definition digest (msg : list Z) : list Z :=
  let padded := pad msg in
  let blocks := chunks (List.length padded) block_bytes padded in
  flat_map (be_bytes 8) (fold_left compress blocks H0).

(** RFC 2104: a key longer than a block is hashed first, a shorter one is
    filled with zeros. *)
Definition hmac_key (key : list Z) : list Z :=
  let k := if (block_bytes <? List.length key)%nat then digest key else key in
  k ++ repeat 0 (block_bytes - List.length k).

Definition hmac (key msg : list Z) : list Z :=
  let k := hmac_key key in
  let ipad := map (Z.lxor 54) k in
  let opad := map (Z.lxor 92) k in
  digest (opad ++ digest (ipad ++ msg)).

Arguments digest : simpl never.
Arguments hmac : simpl never.

End Sha512.

(** ** JavaScript values, as far as the class handles them *)

Module Js.

(** A number is kept as the decimal [mantissa / 10 ^ scale] that
    [Number.prototype.toString] prints for it (the shortest decimal that
    reads back as the same double).  Exponent notation, used below 1e-6 and
    from 1e21 on, NaN and the infinities are outside the model. *)
Record number := Num { mantissa : Z; scale : nat }.

Definition of_Z (z : Z) : number := Num z 0.

Inductive value :=
| Undefined
| Null
| Bool (b : bool)
| Number (n : number)
| Str (s : string)
| Array (elems : list value)
| Object (props : list (string * value)).

(** The own properties of an object, in creation order. *)
Definition props := list (string * value).

Definition digits (n : Z) : string := NilZero.string_of_int (Z.to_int n).

Fixpoint normalize (m : Z) (sc : nat) : Z * nat :=
  match sc with
  | O => (m, O)
  | S sc' => if m mod 10 =? 0 then normalize (m / 10) sc' else (m, sc)
  end.

Fixpoint zeros (n : nat) : string :=
  match n with
  | O => ""
  | S n' => String "0" (zeros n')
  end.

Definition Number_toString (x : number) : string :=
  let (m, sc) := normalize (mantissa x) (scale x) in
  let a := Z.abs m in
  let sign := if m <? 0 then "-" else "" in
  match sc with
  | O => (sign ++ digits a)%string
  | _ =>
      let p := 10 ^ Z.of_nat sc in
      let frac := digits (a mod p) in
      (sign ++ digits (a / p) ++ "." ++ zeros (sc - String.length frac) ++ frac)%string
  end.

(** [ToString], with [Array.prototype.join] for arrays: an element that is
    null or undefined joins as the empty string. *)
Fixpoint ToString (v : value) : string :=
  match v with
  | Undefined => "undefined"
  | Null => "null"
  | Bool b => if b then "true" else "false"
  | Number n => Number_toString n
  | Str s => s
  | Array l =>
      (fix join (l : list value) : string :=
         match l with
         | [] => ""
         | e :: l' =>
             let se := match e with
                       | Undefined | Null => ""
                       | _ => ToString e
                       end in
             match l' with
             | [] => se
             | _ => (se ++ "," ++ join l')%string
             end
         end) l
  | Object _ => "[object Object]"
  end.

Definition ToBoolean (v : value) : bool :=
  match v with
  | Undefined | Null => false
  | Bool b => b
  | Number n => negb (mantissa n =? 0)
  | Str s => negb (s =? "")%string
  | Array _ | Object _ => true
  end.

(** [a || b] *)
Definition or_else (a b : value) : value := if ToBoolean a then a else b.

(** A parameter default [p = d] applies when the argument is undefined. *)
Definition default_to (d a : value) : value :=
  match a with
  | Undefined => d
  | _ => a
  end.

Definition typeof (v : value) : string :=
  match v with
  | Undefined => "undefined"
  | Null | Array _ | Object _ => "object"
  | Bool _ => "boolean"
  | Number _ => "number"
  | Str _ => "string"
  end.

Definition is_null (v : value) : bool :=
  match v with
  | Null => true
  | _ => false
  end.

(** [Array.prototype.includes] on an array of strings *)
Definition includes (l : list string) (s : string) : bool :=
  existsb (String.eqb s) l.

(** [toLowerCase] as it acts on ASCII text: the letters A to Z are lowered,
    one by one.  Beyond ASCII the runtime lowers other letters too; what is
    proved about letter case is stated for ASCII text. *)
Definition lower (c : ascii) : ascii :=
  let n := nat_of_ascii c in
  if ((65 <=? n) && (n <=? 90))%nat then ascii_of_nat (n + 32) else c.

Fixpoint toLowerCase (s : string) : string :=
  match s with
  | EmptyString => EmptyString
  | String c s' => String (lower c) (toLowerCase s')
  end.

(** *** Property order *)

Definition is_digit (c : ascii) : bool :=
  let n := nat_of_ascii c in ((48 <=? n) && (n <=? 57))%nat.

Fixpoint all_digits (s : string) : bool :=
  match s with
  | EmptyString => true
  | String c s' => is_digit c && all_digits s'
  end.

Fixpoint decimal_value (acc : Z) (s : string) : Z :=
  match s with
  | EmptyString => acc
  | String c s' => decimal_value (10 * acc + (Z.of_nat (nat_of_ascii c) - 48)) s'
  end.

(** An array index is the canonical decimal text of an integer below
    2^32 - 1. *)
Definition array_index (k : string) : option Z :=
  if all_digits k && negb (k =? "")%string then
    let n := decimal_value 0 k in
    if (digits n =? k)%string && (n <? 2 ^ 32 - 1) then Some n else None
  else None.

Definition is_index (k : string) : bool :=
  match array_index k with
  | Some _ => true
  | None => false
  end.

Section Sorting.
Context {A : Type} (lt : A -> A -> bool).

(** Stable insertion: [x] stood before every element of [l]. *)
Fixpoint insert (x : A) (l : list A) : list A :=
  match l with
  | [] => [x]
  | y :: l' => if lt y x then y :: insert x l' else x :: l
  end.

Fixpoint sort (l : list A) : list A :=
  match l with
  | [] => []
  | x :: l' => insert x (sort l')
  end.

End Sorting.

Section Properties.
Context {A : Type}.

(** The properties whose key is an array index, each with its index. *)
Definition indexed (o : list (string * A)) : list (Z * (string * A)) :=
  flat_map (fun p => match array_index (fst p) with
                     | Some i => [(i, p)]
                     | None => []
                     end) o.

Definition index_lt (a b : Z * (string * A)) : bool := fst a <? fst b.

(** [OrdinaryOwnPropertyKeys]: array indices in ascending numeric order,
    then the other keys in creation order. *)
Definition own_entries (o : list (string * A)) : list (string * A) :=
  map snd (sort index_lt (indexed o))
  ++ filter (fun p => negb (is_index (fst p))) o.

Fixpoint lookup (k : string) (o : list (string * A)) : option A :=
  match o with
  | [] => None
  | (k', v) :: o' => if (k' =? k)%string then Some v else lookup k o'
  end.

(** [CreateDataProperty]: an existing key keeps its place. *)
Fixpoint define (k : string) (v : A) (o : list (string * A)) : list (string * A) :=
  match o with
  | [] => [(k, v)]
  | (k', v') :: o' =>
      if (k' =? k)%string then (k, v) :: o' else (k', v') :: define k v o'
  end.
End Properties.

Definition Object_entries (o : props) : list (string * value) := own_entries o.

Definition Object_values (o : props) : list value := map snd (own_entries o).

Definition Object_fromEntries (es : list (string * value)) : props :=
  fold_left (fun o e => define (fst e) (snd e) o) es [].

(** An entry is the array [[key, value]]; [sort()] without a comparator
    orders the elements by their [ToString], in code-unit order, and is
    stable.  The bytes compared here are in that order on ASCII text; what
    is proved about the order of keys is stated for ASCII keys. *)
Definition entry_text (e : string * value) : string :=
  ToString (Array [Str (fst e); snd e]).

Definition entry_lt (e1 e2 : string * value) : bool :=
  (entry_text e1 <? entry_text e2)%string.

Definition Array_sort (es : list (string * value)) : list (string * value) :=
  sort entry_lt es.

(** [o[k]] on a value *)
Definition Get (k : string) (o : props) : value :=
  match lookup k o with
  | Some v => v
  | None => Undefined
  end.

(** *** [JSON.stringify] *)

Definition hex_digit (n : nat) : ascii :=
  ascii_of_nat (if (n <? 10)%nat then 48 + n else 87 + n).

Definition dquote : string := String (ascii_of_nat 34) EmptyString.

Definition quote_char (c : ascii) : string :=
  let n := nat_of_ascii c in
  if (n =? 34)%nat then ("\" ++ dquote)%string
  else if (n =? 92)%nat then "\\"
  else if (n =? 8)%nat then "\b"
  else if (n =? 9)%nat then "\t"
  else if (n =? 10)%nat then "\n"
  else if (n =? 12)%nat then "\f"
  else if (n =? 13)%nat then "\r"
  else if (n <? 32)%nat then
    ("\u00" ++ String (hex_digit (n / 16)) (String (hex_digit (n mod 16)) EmptyString))%string
  else String c EmptyString.

Fixpoint quote_chars (s : string) : string :=
  match s with
  | EmptyString => EmptyString
  | String c s' => (quote_char c ++ quote_chars s')%string
  end.

Definition JSON_quote (s : string) : string :=
  (dquote ++ quote_chars s ++ dquote)%string.

Fixpoint join_with (sep : string) (l : list string) : string :=
  match l with
  | [] => ""
  | [x] => x
  | x :: l' => (x ++ sep ++ join_with sep l')%string
  end.

Definition member_text (m : string * option string) : list string :=
  match snd m with
  | Some t => [(JSON_quote (fst m) ++ ":" ++ t)%string]
  | None => []
  end.

(** [None] stands for the result [undefined]. *)
Fixpoint JSON_stringify (v : value) : option string :=
  match v with
  | Undefined => None
  | Null => Some "null"
  | Bool b => Some (if b then "true" else "false")
  | Number n => Some (Number_toString n)
  | Str s => Some (JSON_quote s)
  | Array l =>
      let items :=
        (fix items (l : list value) : list string :=
           match l with
           | [] => []
           | e :: l' =>
               match JSON_stringify e with
               | Some t => t
               | None => "null"
               end :: items l'
           end) l in
      Some ("[" ++ join_with "," items ++ "]")%string
  | Object o =>
      let members :=
        (fix members (o : list (string * value)) : list (string * option string) :=
           match o with
           | [] => []
           | (k, x) :: o' => (k, JSON_stringify x) :: members o'
           end) o in
      Some ("{" ++ join_with "," (flat_map member_text (own_entries members)) ++ "}")%string
  end.

(** A value inside a template literal *)
Definition interpolate (t : option string) : string :=
  match t with
  | Some t => t
  | None => "undefined"
  end.

(** *** Errors and completions *)

Record response := Response { status : Z; data : value }.

(** The error object axios rejects with: [error.response], whether
    [error.request] is set, and [error.message]. *)
Record axios_error := AxiosFailure {
  error_response : option response;
  error_request : bool;
  error_message : string
}.

Inductive error :=
| Error (message : string)
| ReferenceError (message : string)
| TypeError (message : string)
| AxiosError (e : axios_error).

Inductive completion (A : Type) :=
| Normal (a : A)
| Throw (e : error).
Arguments Normal {A} a.
Arguments Throw {A} e.

End Js.

Import Js.

(** ** The client object and what surrounds it

    One [world] holds what a call can read or change: the clock behind
    [Date.now()], the header slots of [this.client.defaults.headers] that all
    calls of a client share, the requests handed to the transport so far, and
    what becomes of each of them. *)

Inductive method := GET | POST | PATCH.

Record request := Request {
  req_method : method;
  req_url : string;
  req_headers : props;
  req_data : option value;
  req_params : option props
}.

(** What becomes of a request handed to the transport. *)
Inductive outcome :=
| Responded (r : response)
| NoResponse (message : string)
| NotSent (message : string).

Record world := World {
  clock : nat -> Z;
  reads : nat;
  headers : props;
  requests : list request;
  network : nat -> outcome
}.

Definition M (A : Type) : Type := world -> completion A * world.

Definition ret {A} (a : A) : M A := fun w => (Normal a, w).

Definition throw {A} (e : error) : M A := fun w => (Throw e, w).

Definition bind {A B} (m : M A) (k : A -> M B) : M B :=
  fun w =>
    match m w with
    | (Normal a, w') => k a w'
    | (Throw e, w') => (Throw e, w')
    end.

(** [try { m } catch (e) { h e }], which is also what a rejection handler
    does to a promise. *)
Definition catch {A} (m : M A) (h : error -> M A) : M A :=
  fun w =>
    match m w with
    | (Normal a, w') => (Normal a, w')
    | (Throw e, w') => h e w'
    end.

Notation "x <- m ;; k" := (bind m (fun x => k))
  (at level 61, m at next level, right associativity).
Notation "m ;;; k" := (bind m (fun _ => k))
  (at level 61, right associativity).

Definition Date_now : M Z :=
  fun w => (Normal (clock w (reads w)),
            World (clock w) (S (reads w)) (headers w) (requests w) (network w)).

(** [this.client.defaults.headers[name] = v] *)
Definition set_header (name : string) (v : value) : M unit :=
  fun w => (Normal tt,
            World (clock w) (reads w) (define name v (headers w)) (requests w) (network w)).

Definition get_headers : M props := fun w => (Normal (headers w), w).

(** Reading an identifier: the bindings in scope, innermost first.  Nothing
    else is declared in the module or defined by Node under the names looked
    up here, so a name that is not bound throws. *)
Definition identifier (scope : props) (name : string) : M value :=
  match lookup name scope with
  | Some v => ret v
  | None => throw (ReferenceError (name ++ " is not defined"))
  end.

(** Reading property [k] of [v] *)
Definition GetV (v : value) (k : string) : M value :=
  match v with
  | Undefined =>
      throw (TypeError ("Cannot read properties of undefined (reading '" ++ k ++ "')"))
  | Null =>
      throw (TypeError ("Cannot read properties of null (reading '" ++ k ++ "')"))
  | Object o => ret (Get k o)
  | _ => ret Undefined
  end.

Definition utf8 (s : string) : list Z :=
  map (fun b => Z.of_N (Byte.to_N b)) (list_byte_of_string s).

Definition not_a_buffer : string :=
  "The first argument must be of type string or an instance of Buffer, ArrayBuffer, or Array or an Array-like Object.".

(** [Buffer.from(v)] for the key and the message, which the class declares
    as strings.  Of the other values, those that Node also turns into bytes
    (arrays, array-like objects) are outside the model. *)
Definition Buffer_from (v : value) : M (list Z) :=
  match v with
  | Str s => ret (utf8 s)
  | _ => throw (TypeError not_a_buffer)
  end.

Definition hex_byte (b : Z) : string :=
  String (hex_digit (Z.to_nat (b / 16)))
         (String (hex_digit (Z.to_nat (b mod 16))) EmptyString).

(** [digest('hex')] *)
Definition hex (bs : list Z) : string := String.concat "" (map hex_byte bs).

(** The configuration the constructor stores on [this]. *)
Record client := Client {
  apiKey : value;
  secretKey : value;
  baseURL : value;
  resultUrl : value;
  failUrl : value;
  successUrl : value;
  priorityGame : value;
  version : value;
  timeout : value
}.

Module SkinvedAPI.

(** *** [#generateSignature] *)

Definition sortedData (data : props) : props :=
  Object_fromEntries (Array_sort (Object_entries data)).

(** The body of the [for ... of] loop *)
Definition append_value (stringData : string) (v : value) : string :=
  if includes ["array"; "object"; "undefined"] (typeof v) || is_null v then stringData
  else
    match v with
    | Bool b => (stringData ++ (if b then "true" else "false"))%string
    | _ => (stringData ++ ToString v)%string
    end.

(** [stringData] when the loop ends: the canonical string of [data]. *)
Definition canonical (data : props) : string :=
  fold_left append_value (Object_values (sortedData data)) "".

Definition signed_material (data : props) (timestamp : Z) : string :=
  toLowerCase (canonical data ++ ToString (Number (of_Z timestamp))).

Definition generateSignature (this : client) (data : props) : M string :=
  timestamp <- Date_now ;;
  let stringData := canonical data in
  let stringData := (stringData ++ ToString (Number (of_Z timestamp)))%string in
  key <- Buffer_from (secretKey this) ;;
  msg <- Buffer_from (Str (toLowerCase stringData)) ;;
  ret (hex (Sha512.hmac key msg)).

(** *** The axios instance of the constructor *)

(** The two header assignments, as the serializer and the signed endpoints
    make them. *)
Definition sign_headers (this : client) (params : props) : M unit :=
  now <- Date_now ;;
  set_header "X-Timestamp" (Number (of_Z now)) ;;;
  signature <- generateSignature this params ;;
  set_header "X-Signature" (Str signature).

(** [paramsSerializer].  The query text that [qs.stringify] returns is not
    modelled: a request carries the parameter object itself. *)
Definition paramsSerializer (this : client) (params : props) : M unit :=
  sign_headers this params.

(** The rejection handler of [interceptors.response.use]. *)
Definition on_rejected {A} (e : error) : M A :=
  match e with
  | AxiosError {| error_response := Some r |} =>
      throw (Error ("SkinVend API Error: " ++ digits (status r) ++ " - "
                    ++ interpolate (JSON_stringify (data r))))
  | AxiosError {| error_response := None; error_request := true |} =>
      throw (Error "SkinVend API Error: No response received")
  | AxiosError {| error_response := None; error_request := false; error_message := m |} =>
      throw (Error ("SkinVend API Error: " ++ m))
  | Error m | ReferenceError m | TypeError m =>
      throw (Error ("SkinVend API Error: " ++ m))
  end.

(** The transport: the request is recorded with the headers it carries, and
    axios settles the promise by what comes back ([validateStatus] for a
    response). *)
Definition transmit (r : request) : M response :=
  fun w =>
    let w' := World (clock w) (reads w) (headers w) (requests w ++ [r]) (network w) in
    match network w (List.length (requests w)) with
    | Responded resp =>
        if (200 <=? status resp) && (status resp <? 300) then (Normal resp, w')
        else (Throw (AxiosError (AxiosFailure (Some resp) true
                ("Request failed with status code " ++ digits (status resp)))), w')
    | NoResponse m => (Throw (AxiosError (AxiosFailure None true m)), w')
    | NotSent m => (Throw (AxiosError (AxiosFailure None false m)), w')
    end.

(** [this.client.request(config)]: axios copies the instance defaults into
    the configuration of the request when the call is made; the parameters,
    when there are any, are serialized afterwards, while the URL is built. *)
Definition client_request (this : client) (m : method) (url : string)
    (body : option value) (params : option props) : M response :=
  hs <- get_headers ;;
  catch
    (match params with
     | Some p => paramsSerializer this p
     | None => ret tt
     end ;;;
     transmit (Request m url hs body params))
    on_rejected.

Definition client_get (this : client) (url : string) (params : option props) : M response :=
  client_request this GET url None params.

Definition client_post (this : client) (url : string) (body : value) : M response :=
  client_request this POST url (Some body) None.

Definition client_patch (this : client) (url : string) (body : value) : M response :=
  client_request this PATCH url (Some body) None.

(** *** The constructor *)

Definition constructor (apiKey secretKey options : value) : M client :=
  let options := default_to (Object []) options in
  if negb (ToBoolean apiKey) then throw (Error "API key is required")
  else if negb (ToBoolean secretKey) then throw (Error "Secret Key is required")
  else
    baseURL <- GetV options "baseURL" ;;
    resultUrl <- GetV options "resultUrl" ;;
    failUrl <- GetV options "failUrl" ;;
    successUrl <- GetV options "successUrl" ;;
    priorityGame <- GetV options "priorityGame" ;;
    versionApi <- GetV options "versionApi" ;;
    timeout <- GetV options "timeout" ;;
    let this :=
      Client apiKey secretKey
             (or_else baseURL (Str "https://skinvend.io"))
             (or_else resultUrl (Str ""))
             (or_else failUrl (Str ""))
             (or_else successUrl (Str ""))
             (or_else priorityGame (Number (of_Z 730)))
             (or_else versionApi (Str "v1"))
             (or_else timeout (Number (of_Z 10000))) in
    (fun w => (Normal this,
               World (clock w) (reads w) [("apiKey", apiKey)] (requests w) (network w))).

(** *** The endpoints.  An async function that throws returns a rejected
    promise: [Throw] is the rejection, [Normal] the fulfilment. *)

Definition CreateDeposit (this : client)
    (deposit_id steam_id trade_url min_amount : value) : M value :=
  let steam_id := default_to Null steam_id in
  let trade_url := default_to (Str "") trade_url in
  let min_amount := default_to (Number (Num 5 1)) min_amount in
  if negb (ToBoolean deposit_id) then throw (Error "Deposit ID is required")
  else
    let params :=
      [("deposit_id", deposit_id); ("steam_id", steam_id);
       ("trade_url", trade_url); ("min_amount", min_amount);
       ("result_url", resultUrl this); ("fail_url", failUrl this);
       ("success_url", successUrl this); ("priority_game", priorityGame this)] in
    sign_headers this params ;;;
    r <- client_post this "deposit" (Object params) ;;
    ret (data r).

Definition CreateOffer (this : client)
    (deposit_id steam_id app_id trade_url item_array : value) : M value :=
  let steam_id := default_to Null steam_id in
  let app_id := default_to (priorityGame this) app_id in
  let trade_url := default_to (Str "") trade_url in
  let item_array := default_to (Array []) item_array in
  if negb (ToBoolean deposit_id) then throw (Error "Deposit ID is required")
  else
    let DepositParams := [("deposit_id", deposit_id); ("steam_id", steam_id)] in
    sign_headers this DepositParams ;;;
    r <- client_post this "deposit" (Object DepositParams) ;;
    let data := data r in
    trade_id <- GetV data "trade_id" ;;
    let TradeParams :=
      [("app_id", app_id); ("trade_id", trade_id);
       ("trade_url", trade_url); ("item_array", item_array)] in
    sign_headers this TradeParams ;;;
    let scope :=
      [("TradeParams", Object TradeParams); ("data", data);
       ("DepositParams", Object DepositParams);
       ("deposit_id", deposit_id); ("steam_id", steam_id); ("app_id", app_id);
       ("trade_url", trade_url); ("item_array", item_array)] in
    params <- identifier scope "params" ;;
    _ <- client_post this "deposit" params ;;
    (* the response object has no property [result] *)
    let result := Undefined in
    GetV result "data".

Definition GetStatusDeposit (this : client) (trade_id : value) : M value :=
  if negb (ToBoolean trade_id) then throw (Error "Trade ID is required")
  else
    r <- client_get this "deposit/status" (Some [("trade_id", trade_id)]) ;;
    ret (data r).

Definition GetHistoryDeposits (this : client) (start_date end_date : value) : M value :=
  if negb (ToBoolean start_date) || negb (ToBoolean end_date)
  then throw (Error "Date (start_date | end_date) is required")
  else
    r <- client_get this "deposit/history"
           (Some [("start_date", start_date); ("end_date", end_date)]) ;;
    ret (data r).

Definition GetSkinsDeposit (this : client) (trade_id : value) : M value :=
  if negb (ToBoolean trade_id) then throw (Error "Trade ID is required")
  else
    r <- client_get this "inventory" (Some [("trade_id", trade_id)]) ;;
    ret (data r).

Definition GetProjectBalance (this : client) : M value :=
  r <- client_get this "project/balance" None ;;
  ret (data r).

Definition SetProjectRate (this : client) (coin_rate : value) : M value :=
  sign_headers this [("coin_rate", coin_rate)] ;;;
  _ <- client_patch this "project/balance" (Object [("coin_rate", coin_rate)]) ;;
  ret Undefined.

Definition GetClientSteamInvetory (this : client) (steam_id refresh app_id : value) : M value :=
  let refresh := default_to (Bool false) refresh in
  let app_id := default_to (priorityGame this) app_id in
  if negb (ToBoolean steam_id) then throw (Error "SteamID is required")
  else
    r <- client_get this "inventory"
           (Some [("app_id", app_id); ("steam_id", steam_id); ("refresh", refresh)]) ;;
    ret (data r).

Definition SearchSkins (this : client) (app_id id name : value) : M value :=
  let app_id := default_to (priorityGame this) app_id in
  let id := default_to Null id in
  let name := default_to Null name in
  if negb (ToBoolean app_id) then throw (Error "Deposit ID is required")
  else
    r <- client_get this "items/search"
           (Some [("app_id", app_id); ("id", id); ("name", name)]) ;;
    ret (data r).

Definition CheckBotStatus (this : client) (tradeUrl : value) : M value :=
  if negb (ToBoolean tradeUrl) then throw (Error "Deposit ID is required")
  else
    r <- client_get this "check-user-ability" (Some [("tradeUrl", tradeUrl)]) ;;
    ret (data r).

Definition BuySkin (this : client)
    (internal_id partner partner_token app_id max_price item_id full_name : value)
    : M value :=
  let app_id := default_to (priorityGame this) app_id in
  let max_price := default_to (Number (of_Z 1)) max_price in
  let item_id := default_to (Str "") item_id in
  let full_name := default_to (Str "") full_name in
  let scope :=
    [("internal_id", internal_id); ("partner", partner);
     ("partner_token", partner_token); ("app_id", app_id);
     ("max_price", max_price); ("item_id", item_id); ("full_name", full_name)] in
  trade_id <- identifier scope "trade_id" ;;
  if negb (ToBoolean trade_id) then throw (Error "Trade ID is required")
  else
    let params :=
      [("internal_id", internal_id); ("partner", partner);
       ("partner_token", partner_token); ("app_id", app_id);
       ("max_price", max_price); ("item_id", item_id); ("full_name", full_name)] in
    sign_headers this params ;;;
    r <- client_post this "withdraw/buy" (Object params) ;;
    ret (data r).

Definition PurchaseStatus (this : client) (internal_ids trade_ids : value) : M value :=
  if negb (ToBoolean internal_ids) || negb (ToBoolean trade_ids)
  then throw (Error "trade_ids | trade_ids is required")
  else
    r <- client_get this "withdraw/status"
           (Some [("internal_ids", internal_ids); ("trade_ids", trade_ids)]) ;;
    ret (data r).

Definition PurchaseHistory (this : client) (start_date end_date : value) : M value :=
  if negb (ToBoolean start_date) || negb (ToBoolean end_date)
  then throw (Error "start_date | end_date is required")
  else
    r <- client_get this "withdraw/history"
           (Some [("start_date", start_date); ("end_date", end_date)]) ;;
    ret (data r).

End SkinvedAPI.

(** ** The specification's wording, to compare the code with *)

Module Spec.

(** An entry is skipped when its value is null, undefined, an array or an
    object. *)
Definition skipped (v : value) : bool :=
  match v with
  | Null | Undefined | Array _ | Object _ => true
  | _ => false
  end.

Definition kept (v : value) : bool := negb (skipped v).

(** Booleans render as the words true and false, numbers and strings as
    their natural text. *)
Definition text (v : value) : string :=
  match v with
  | Bool b => if b then "true" else "false"
  | Number n => Number_toString n
  | Str s => s
  | _ => ""
  end.

Definition key_lt (e1 e2 : string * value) : bool := (fst e1 <? fst e2)%string.

(** Sort the entries by key, skip, append the textual forms. *)
Definition canonical (data : props) : string :=
  String.concat ""
    (map text (filter kept (map snd (sort key_lt data)))).


Inductive NormalizedError :=
| ServerError (status : Z) (body : string)
| NoResponseError
| TransportError (message : string).

(** The error object that stands for each kind: the class throws plain
    [Error]s and tells the kinds apart by the message. *)
Definition raised (k : NormalizedError) : error :=
  match k with
  | ServerError st body =>
      Error ("SkinVend API Error: " ++ digits st ++ " - " ++ body)
  | NoResponseError => Error "SkinVend API Error: No response received"
  | TransportError m => Error ("SkinVend API Error: " ++ m)
  end.

(** What the caller of a request is to see: the response when its status is
    2xx, and otherwise the error of one of the three transitions. *)
Definition settle (o : outcome) : completion response :=
  match o with
  | Responded r =>
      if (200 <=? status r) && (status r <? 300) then Normal r
      else Throw (raised (ServerError (status r) (interpolate (JSON_stringify (data r)))))
  | NoResponse _ => Throw (raised NoResponseError)
  | NotSent m => Throw (raised (TransportError m))
  end.

End Spec.

(** A mapping is an object: no key occurs twice. *)
Definition well_formed (data : props) : Prop := NoDup (map fst data).

(** Text made of ASCII characters only.  For such text the order of the
    bytes, which [entry_lt] compares, is the order of the UTF-16 code units
    that [sort()] compares, and [toLowerCase] lowers the letters A to Z and
    nothing else, as [String.prototype.toLowerCase] does there. *)
Fixpoint is_ascii (s : string) : bool :=
  match s with
  | EmptyString => true
  | String c s' => (nat_of_ascii c <? 128)%nat && is_ascii s'
  end.

Fixpoint after_comma (k : string) : bool :=
  match k with
  | EmptyString => true
  | String c k' => (44 <? nat_of_ascii c)%nat && after_comma k'
  end.

(** Keys such as the parameter names of the API: every character is an
    ASCII character that comes after the comma (letters, digits and the
    underscore are), and the key is not an array index. *)
Definition plain_key (k : string) : bool :=
  is_ascii k && after_comma k && negb (is_index k).

(** A value whose text, when it is a string, is ASCII. *)
Definition ascii_value (v : value) : bool :=
  match v with
  | Str s => is_ascii s
  | _ => true
  end.

(** ** Scenarios *)

Module Scenario.

(** A clock that advances by one millisecond between two readings. *)
Definition ticking (n : nat) : Z := 1700000000000 + Z.of_nat n.

Definition frozen (n : nat) : Z := 1700000000000.

Definition accepts (n : nat) : outcome :=
  Responded (Response 200 (Object [("trade_id", Str "T1"); ("url", Str "u")])).

(** Before the client is constructed, and once it is. *)
Definition blank (clk : nat -> Z) (net : nat -> outcome) : world :=
  World clk 0 [] [] net.

Definition start (clk : nat -> Z) (net : nat -> outcome) : world :=
  World clk 0 [("apiKey", Str "KEY")] [] net.

Definition shop : client :=
  Client (Str "KEY") (Str "s3cr3t") (Str "https://skinvend.io") (Str "") (Str "")
         (Str "") (Number (of_Z 730)) (Str "v1") (Number (of_Z 10000)).

Definition deposit_D1 : props :=
  [("deposit_id", Str "D1"); ("min_amount", Number (Num 5 1))].

(** What [CreateDeposit("D1")] sends and signs with this client. *)
Definition deposit_params : props :=
  [("deposit_id", Str "D1"); ("steam_id", Null); ("trade_url", Str "");
   ("min_amount", Number (Num 5 1)); ("result_url", Str "");
   ("fail_url", Str ""); ("success_url", Str "");
   ("priority_game", Number (of_Z 730))].

Definition signature_at (params : props) (timestamp : Z) : string :=
  hex (Sha512.hmac (utf8 "s3cr3t")
         (utf8 (SkinvedAPI.signed_material params timestamp))).


Definition refuses (n : nat) : outcome :=
  Responded (Response 422 (Object [("error", Str "bad_amount")])).

Definition bad_amount : string :=
  "{" ++ dquote ++ "error" ++ dquote ++ ":" ++ dquote ++ "bad_amount" ++ dquote ++ "}".

Definition offer_params : props :=
  [("app_id", Number (of_Z 730)); ("trade_id", Str "T1");
   ("trade_url", Str ""); ("item_array", Array [])].


Definition prefix_keys : props := [("a", Str "z"); ("a!", Str "y")].

End Scenario.

(** ** Calls made one after the other

    A user of the class awaits one endpoint after the other on the same
    client; [session] is the state they leave behind. *)

Inductive call :=
| CallCreateDeposit (deposit_id steam_id trade_url min_amount : value)
| CallCreateOffer (deposit_id steam_id app_id trade_url item_array : value)
| CallGetStatusDeposit (trade_id : value)
| CallGetHistoryDeposits (start_date end_date : value)
| CallGetSkinsDeposit (trade_id : value)
| CallGetProjectBalance
| CallSetProjectRate (coin_rate : value)
| CallGetClientSteamInvetory (steam_id refresh app_id : value)
| CallSearchSkins (app_id id name : value)
| CallCheckBotStatus (tradeUrl : value)
| CallBuySkin (internal_id partner partner_token app_id max_price item_id full_name : value)
| CallPurchaseStatus (internal_ids trade_ids : value)
| CallPurchaseHistory (start_date end_date : value).

Definition invoke (this : client) (c : call) : M value :=
  match c with
  | CallCreateDeposit a b c d => SkinvedAPI.CreateDeposit this a b c d
  | CallCreateOffer a b c d e => SkinvedAPI.CreateOffer this a b c d e
  | CallGetStatusDeposit a => SkinvedAPI.GetStatusDeposit this a
  | CallGetHistoryDeposits a b => SkinvedAPI.GetHistoryDeposits this a b
  | CallGetSkinsDeposit a => SkinvedAPI.GetSkinsDeposit this a
  | CallGetProjectBalance => SkinvedAPI.GetProjectBalance this
  | CallSetProjectRate a => SkinvedAPI.SetProjectRate this a
  | CallGetClientSteamInvetory a b c => SkinvedAPI.GetClientSteamInvetory this a b c
  | CallSearchSkins a b c => SkinvedAPI.SearchSkins this a b c
  | CallCheckBotStatus a => SkinvedAPI.CheckBotStatus this a
  | CallBuySkin a b c d e f g => SkinvedAPI.BuySkin this a b c d e f g
  | CallPurchaseStatus a b => SkinvedAPI.PurchaseStatus this a b
  | CallPurchaseHistory a b => SkinvedAPI.PurchaseHistory this a b
  end.

Fixpoint session (this : client) (cs : list call) (w : world) : world :=
  match cs with
  | [] => w
  | c :: cs' => session this cs' (snd (invoke this c w))
  end.

(** [m] keeps [I]: from a state where [I] holds it ends in one. *)
Definition keeps (I : world -> Prop) {A : Type} (m : M A) : Prop :=
  forall w, I w -> I (snd (m w)).

(** [m] hands at most [n] requests to the transport, after those there. *)
Definition sends (n : nat) {A : Type} (m : M A) : Prop :=
  forall w, exists new,
    requests (snd (m w)) = requests w ++ new /\ (List.length new <= n)%nat.

(** The request carries the API key [v]. *)
Definition carries (v : value) (r : request) : Prop :=
  Get "apiKey" (req_headers r) = v.

(** The slot of the API key holds [v], and so does every request handed to
    the transport after those of [base]. *)
Definition keyed (base : list request) (v : value) (w : world) : Prop :=
  Get "apiKey" (headers w) = v
  /\ exists new, requests w = base ++ new /\ Forall (carries v) new.

(** The errors [m] can end with: one the interceptor made, which starts
    with the words of the API, or one that is no plain [Error]. *)
Definition from_the_interceptor (e : error) : Prop :=
  match e with
  | Error message => String.prefix "SkinVend API Error: " message = true
  | _ => True
  end.

Definition no_plain_error {A : Type} (m : M A) : Prop :=
  forall w e, fst (m w) = Throw e -> from_the_interceptor e.


(** The mapping with the letters of its string values in lower case. *)
Definition lower_value (v : value) : value :=
  match v with
  | Str s => Str (toLowerCase s)
  | _ => v
  end.

Definition lower_values (data : props) : props :=
  map (fun e => (fst e, lower_value (snd e))) data.



Definition upper_case (c : ascii) : bool :=
  let n := nat_of_ascii c in ((65 <=? n) && (n <=? 90))%nat.

(** The pair the two header slots hold once [params] are signed in [w] with
    the key [k]. *)
Definition signed_slots (k : string) (params : props) (w : world) : props :=
  define "X-Signature"
    (Str (hex (Sha512.hmac (utf8 k)
                 (utf8 (SkinvedAPI.signed_material params (clock w (S (reads w))))))))
    (define "X-Timestamp" (Number (of_Z (clock w (reads w)))) (headers w)).

Import SkinvedAPI.

(** ** The stable sort *)

Section SortFacts.
Context {A : Type} (lt : A -> A -> bool).

Lemma insert_perm (x : A) (l : list A) : Permutation (insert lt x l) (x :: l).
Proof.
  induction l as [|y l IH]; simpl.
  - apply Permutation_refl.
  - destruct (lt y x).
    + eapply perm_trans; [apply perm_skip, IH | apply perm_swap].
    + apply Permutation_refl.
Qed.

Lemma sort_perm (l : list A) : Permutation (sort lt l) l.
Proof.
  induction l as [|x l IH]; simpl.
  - constructor.
  - eapply perm_trans; [apply insert_perm | now apply perm_skip].
Qed.


Hypothesis lt_asym : forall x y, lt x y = true -> lt y x = false.
Hypothesis lt_negtrans :
  forall x y z, lt y x = false -> lt z y = false -> lt z x = false.





End SortFacts.

(** Two orders that agree on the elements of a list sort it alike. *)
Lemma insert_ext {A} (lt1 lt2 : A -> A -> bool) (x : A) (l : list A) :
  (forall y, In y l -> lt1 y x = lt2 y x) -> insert lt1 x l = insert lt2 x l.
Proof.
  induction l as [|y l IH]; simpl; intros H; [reflexivity|].
  rewrite (H y) by now left.
  destruct (lt2 y x); [|reflexivity].
  f_equal. apply IH. intros z Hz. apply H. now right.
Qed.

Lemma sort_ext {A} (lt1 lt2 : A -> A -> bool) (l : list A) :
  (forall x y, In x l -> In y l -> lt1 x y = lt2 x y) -> sort lt1 l = sort lt2 l.
Proof.
  induction l as [|x l IH]; simpl; intros H; [reflexivity|].
  rewrite IH by (intros; apply H; now right).
  apply insert_ext. intros y Hy. apply H; [right | now left].
  eapply Permutation_in; [apply sort_perm | exact Hy].
Qed.

(** ** Code-unit order on strings *)





Lemma ltb_asym (s t : string) :
  (s <? t)%string = true -> (t <? s)%string = false.
Proof.
  unfold String.ltb. rewrite (String.compare_antisym s t).
  destruct (String.compare t s); simpl; congruence.
Qed.


Lemma ltb_irrefl (s : string) : (s <? s)%string = false.
Proof.
  destruct (s <? s)%string eqn:E; [|reflexivity].
  now rewrite (ltb_asym _ _ E) in E.
Qed.

Lemma append_empty_r (s : string) : (s ++ "")%string = s.
Proof. induction s as [|c s IH]; simpl; [reflexivity | now rewrite IH]. Qed.

Lemma append_assoc (s t u : string) : ((s ++ t) ++ u)%string = (s ++ t ++ u)%string.
Proof. induction s as [|c s IH]; simpl; [reflexivity | now rewrite IH]. Qed.

Lemma concat_empty_cons (x : string) (l : list string) :
  String.concat "" (x :: l) = (x ++ String.concat "" l)%string.
Proof.
  destruct l as [|y l]; simpl; [now rewrite append_empty_r | reflexivity].
Qed.

(** ** Property order and [Object.fromEntries] *)

Section PropertyFacts.
Context {A : Type}.
Implicit Types (o : list (string * A)) (P : string * A -> bool).




Lemma indexed_entries o :
  map snd (indexed o) = filter (fun p => is_index (fst p)) o.
Proof.
  unfold indexed, is_index. induction o as [|p o IH]; simpl; [reflexivity|].
  destruct (array_index (fst p)); simpl; now rewrite IH.
Qed.



Lemma partition_perm (f : string * A -> bool) o :
  Permutation (filter f o ++ filter (fun p => negb (f p)) o) o.
Proof.
  induction o as [|p o IH]; simpl; [constructor|].
  destruct (f p); simpl.
  - now constructor.
  - apply Permutation_sym, Permutation_cons_app, Permutation_sym, IH.
Qed.

Lemma own_entries_perm o : Permutation (own_entries o) o.
Proof.
  unfold own_entries.
  eapply perm_trans; [|apply (partition_perm (fun p => is_index (fst p)))].
  apply Permutation_app_tail.
  rewrite <- indexed_entries. apply Permutation_map, sort_perm.
Qed.

Lemma own_entries_plain o :
  Forall (fun p => is_index (fst p) = false) o -> own_entries o = o.
Proof.
  intros H. unfold own_entries.
  assert (Hi : indexed o = []).
  { unfold indexed. induction H as [|p o Hp _ IH]; simpl; [reflexivity|].
    unfold is_index in Hp. destruct (array_index (fst p)); [discriminate|].
    exact IH. }
  assert (Hf : filter (fun p => negb (is_index (fst p))) o = o).
  { clear Hi. induction H as [|p o Hp _ IH]; cbn [filter]; [reflexivity|].
    rewrite Hp. cbn [negb]. f_equal. exact IH. }
  now rewrite Hi, Hf.
Qed.

Lemma define_fresh (k : string) (v : A) o :
  ~ In k (map fst o) -> define k v o = o ++ [(k, v)].
Proof.
  induction o as [|[k' v'] o IH]; simpl; intros H; [reflexivity|].
  destruct (String.eqb_spec k' k) as [->|_].
  - exfalso. apply H. now left.
  - rewrite IH; [reflexivity|]. intros Hin. apply H. now right.
Qed.

Lemma unique_key o (p q : string * A) :
  NoDup (map fst o) -> In p o -> In q o -> fst p = fst q -> p = q.
Proof.
  induction o as [|r o IH]; simpl; [contradiction|].
  intros Hnd Hp Hq E. inversion Hnd as [|? ? Hr Hnd']; subst.
  destruct Hp as [->|Hp], Hq as [->|Hq]; auto.
  - exfalso. apply Hr. rewrite E. now apply in_map.
  - exfalso. apply Hr. rewrite <- E. now apply in_map.
Qed.
End PropertyFacts.

Lemma fold_define_fresh (es acc : props) :
  NoDup (map fst (acc ++ es)) ->
  fold_left (fun o e => define (fst e) (snd e) o) es acc = acc ++ es.
Proof.
  revert acc. induction es as [|[k v] es IH]; intros acc H; simpl.
  - now rewrite app_nil_r.
  - rewrite map_app in H. simpl in H.
    pose proof (NoDup_remove_2 _ _ _ H) as Hk.
    rewrite define_fresh by (intros Hin; apply Hk, in_or_app; now left).
    rewrite IH; rewrite <- app_assoc; [reflexivity|].
    now rewrite map_app.
Qed.

(** Rebuilding an object from its own entries, in any order, keeps that
    order as the creation order. *)
Lemma fromEntries_unique (es : props) :
  NoDup (map fst es) -> Object_fromEntries es = es.
Proof. intros H. unfold Object_fromEntries. now rewrite fold_define_fresh. Qed.

Lemma well_formed_perm (o o' : props) :
  Permutation o o' -> well_formed o -> well_formed o'.
Proof.
  unfold well_formed. intros Hp.
  apply Permutation_NoDup, Permutation_map, Hp.
Qed.


(** ** The order of the entries *)



Lemma sortedData_eq (data : props) :
  well_formed data -> sortedData data = Array_sort (Object_entries data).
Proof.
  intros H. unfold sortedData. apply fromEntries_unique.
  eapply well_formed_perm; [|exact H].
  apply Permutation_sym.
  eapply perm_trans; [apply sort_perm | apply own_entries_perm].
Qed.

(** ** The loop over the values *)

Lemma append_value_eq (s : string) (v : value) :
  append_value s v = if Spec.skipped v then s else (s ++ Spec.text v)%string.
Proof. destruct v; reflexivity. Qed.

Lemma loop_eq (vs : list value) (acc : string) :
  fold_left append_value vs acc =
  (acc ++ String.concat "" (map Spec.text (filter Spec.kept vs)))%string.
Proof.
  revert acc. induction vs as [|v vs IH]; intros acc; cbn [fold_left filter].
  - simpl. now rewrite append_empty_r.
  - rewrite IH, append_value_eq. unfold Spec.kept at 2.
    destruct (Spec.skipped v); cbn [negb]; [reflexivity|].
    cbn [map]. now rewrite concat_empty_cons, append_assoc.
Qed.

Lemma canonical_eq (data : props) :
  canonical data =
  String.concat "" (map Spec.text (filter Spec.kept (Object_values (sortedData data)))).
Proof. unfold canonical. now rewrite loop_eq. Qed.






(** ** Entry order against key order *)

Lemma entry_text_eq (e : string * value) :
  exists t, entry_text e = (fst e ++ "," ++ t)%string.
Proof. unfold entry_text. cbn. eexists. reflexivity. Qed.

Lemma comma_before (c : ascii) :
  (44 <? nat_of_ascii c)%nat = true -> Ascii.compare "," c = Lt.
Proof.
  intros H. apply Nat.ltb_lt in H.
  unfold Ascii.compare. apply N.compare_lt_iff.
  unfold nat_of_ascii in H. change (N_of_ascii ",") with 44%N. lia.
Qed.

(** Between two distinct keys whose characters come after the comma, the
    comparison of the entries is decided inside the keys. *)
Lemma compare_keys (k1 k2 t1 t2 : string) :
  after_comma k1 = true -> after_comma k2 = true -> k1 <> k2 ->
  String.compare (k1 ++ "," ++ t1) (k2 ++ "," ++ t2) = String.compare k1 k2.
Proof.
  revert k2. induction k1 as [|c1 k1 IH]; intros [|c2 k2]; simpl;
    intros H1 H2 Hne.
  - congruence.
  - apply andb_prop in H2 as [Hc _]. now rewrite comma_before.
  - apply andb_prop in H1 as [Hc _].
    now rewrite Ascii.compare_antisym, comma_before.
  - apply andb_prop in H1 as [_ H1]. apply andb_prop in H2 as [_ H2].
    destruct (Ascii.compare c1 c2) eqn:E; try reflexivity.
    apply Ascii.compare_eq_iff in E. subst.
    apply IH; congruence.
Qed.

Lemma entry_lt_key_lt (x y : string * value) :
  after_comma (fst x) = true -> after_comma (fst y) = true -> fst x <> fst y ->
  entry_lt x y = Spec.key_lt x y.
Proof.
  intros Hx Hy Hne. unfold entry_lt, Spec.key_lt, String.ltb.
  destruct (entry_text_eq x) as [tx ->], (entry_text_eq y) as [ty ->].
  now rewrite compare_keys.
Qed.

Lemma plain_key_after_comma (k : string) : plain_key k = true -> after_comma k = true.
Proof.
  unfold plain_key. intros H. apply andb_prop in H as [H _].
  now apply andb_prop in H.
Qed.

Lemma plain_key_not_index (k : string) : plain_key k = true -> is_index k = false.
Proof.
  unfold plain_key. intros H. apply andb_prop in H as [_ H].
  now apply negb_true_iff in H.
Qed.

Lemma plain_own_entries (o : props) :
  Forall (fun e => plain_key (fst e) = true) o -> own_entries o = o.
Proof.
  intros H. apply own_entries_plain.
  eapply Forall_impl; [|exact H]. intros e. apply plain_key_not_index.
Qed.

Lemma plain_sort (data : props) :
  well_formed data -> Forall (fun e => plain_key (fst e) = true) data ->
  Array_sort data = sort Spec.key_lt data.
Proof.
  intros Hwf Hp. apply sort_ext. intros x y Hx Hy.
  destruct (string_dec (fst x) (fst y)) as [E|Hne].
  - rewrite (unique_key data x y Hwf Hx Hy E).
    unfold entry_lt, Spec.key_lt. now rewrite !ltb_irrefl.
  - rewrite Forall_forall in Hp.
    apply entry_lt_key_lt; auto using plain_key_after_comma.
Qed.


(** The comparison of the entries also reads the text that follows a key,
    when one key is the beginning of another. *)
Example prefix_keys_out_of_key_order :
  canonical Scenario.prefix_keys = "yz" /\ Spec.canonical Scenario.prefix_keys = "zy".
Proof. split; reflexivity. Qed.



(** ** Signing *)

Lemma generateSignature_eq (this : client) (data : props) (w : world) (k : string) :
  secretKey this = Str k ->
  generateSignature this data w =
  (Normal (hex (Sha512.hmac (utf8 k)
                  (utf8 (signed_material data (clock w (reads w)))))),
   World (clock w) (S (reads w)) (headers w) (requests w) (network w)).
Proof.
  intros E. cbv [generateSignature bind Date_now ret Buffer_from signed_material].
  cbn [clock reads headers requests network]. now rewrite E.
Qed.

(** The header takes one reading of the clock and the signature the next. *)
Lemma sign_headers_eq (this : client) (params : props) (w : world) (k : string) :
  secretKey this = Str k ->
  sign_headers this params w =
  (Normal tt,
   World (clock w) (S (S (reads w)))
     (define "X-Signature"
        (Str (hex (Sha512.hmac (utf8 k)
                     (utf8 (signed_material params (clock w (S (reads w))))))))
        (define "X-Timestamp" (Number (of_Z (clock w (reads w)))) (headers w)))
     (requests w) (network w)).
Proof.
  intros E. unfold sign_headers.
  cbv [bind Date_now set_header]. cbn [clock reads headers requests network].
  rewrite (generateSignature_eq this params _ k E).
  reflexivity.
Qed.

(** Signing hands nothing to the transport, whatever the key is. *)
Lemma sign_headers_requests (this : client) (params : props) (w : world) :
  requests (snd (sign_headers this params w)) = requests w
  /\ network (snd (sign_headers this params w)) = network w.
Proof.
  cbv [sign_headers generateSignature bind Date_now set_header ret throw Buffer_from].
  cbn [clock reads headers requests network].
  destruct (secretKey this); cbn; auto.
Qed.

(** C6.  With the secret key s3cr3t, the parameters deposit_id: D1 and
    min_amount: 0.5, and the clock at 1700000000000, the canonical string
    is D10.5, the signed material is d10.51700000000000, and the signature
    is the lowercase hexadecimal HMAC-SHA-512 digest of that material under
    the key, which is the pinned value. *)
Theorem end_to_end_example (this : client) (w : world) :
  secretKey this = Str "s3cr3t" ->
  clock w (reads w) = 1700000000000 ->
  canonical Scenario.deposit_D1 = "D10.5"
  /\ signed_material Scenario.deposit_D1 (clock w (reads w)) = "d10.51700000000000"
  /\ fst (generateSignature this Scenario.deposit_D1 w) =
     Normal (hex (Sha512.hmac (utf8 "s3cr3t") (utf8 "d10.51700000000000")))
  /\ hex (Sha512.hmac (utf8 "s3cr3t") (utf8 "d10.51700000000000")) =
     "7130dffc3cb358fd94df1d440bdecfe9bad439fb5c1acb0ffbda0f87078d3206a79cea8088aad0f469f9234db913392bd5c6b77e0dedb6576506e32d557754ed".
Proof.
  intros Hk Ht.
  assert (Hm : signed_material Scenario.deposit_D1 (clock w (reads w))
               = "d10.51700000000000") by (rewrite Ht; reflexivity).
  split; [reflexivity|]. split; [exact Hm|]. split.
  - rewrite (generateSignature_eq this _ w "s3cr3t" Hk), Hm. reflexivity.
  - vm_compute. reflexivity.
Qed.

Lemma end_to_end_example_witness :
  let w := Scenario.start Scenario.frozen Scenario.accepts in
  secretKey Scenario.shop = Str "s3cr3t"
  /\ clock w (reads w) = 1700000000000
  /\ canonical Scenario.deposit_D1 = "D10.5"
  /\ signed_material Scenario.deposit_D1 (clock w (reads w)) = "d10.51700000000000"
  /\ fst (generateSignature Scenario.shop Scenario.deposit_D1 w) =
     Normal (hex (Sha512.hmac (utf8 "s3cr3t") (utf8 "d10.51700000000000")))
  /\ hex (Sha512.hmac (utf8 "s3cr3t") (utf8 "d10.51700000000000")) =
     "7130dffc3cb358fd94df1d440bdecfe9bad439fb5c1acb0ffbda0f87078d3206a79cea8088aad0f469f9234db913392bd5c6b77e0dedb6576506e32d557754ed".
Proof.
  split; [reflexivity|]. split; [reflexivity|].
  exact (end_to_end_example Scenario.shop
           (Scenario.start Scenario.frozen Scenario.accepts) eq_refl eq_refl).
Defined.

(** ** The headers a request carries *)


Lemma lookup_define_other {A : Type} (k k' : string) (v : A) (o : list (string * A)) :
  k <> k' -> lookup k (define k' v o) = lookup k o.
Proof.
  intros Hne. induction o as [|[k0 v0] o IH]; simpl.
  - destruct (String.eqb_spec k' k); [congruence | reflexivity].
  - destruct (String.eqb_spec k0 k') as [->|H0]; simpl.
    + destruct (String.eqb_spec k' k); [congruence | reflexivity].
    + destruct (String.eqb_spec k0 k); [reflexivity | exact IH].
Qed.

Lemma client_request_without_params
    (this : client) (m : method) (url : string) (body : option value) (w : world) :
  let w' := snd (client_request this m url body None w) in
  requests w' = requests w ++ [Request m url (headers w) body None]
  /\ headers w' = headers w /\ reads w' = reads w /\ network w' = network w.
Proof.
  cbv [client_request bind catch get_headers ret transmit].
  destruct (network w (List.length (requests w))) as [r|e|e]; cbn; auto.
  destruct ((200 <=? status r) && (status r <? 300)); cbn; auto.
Qed.


(** ** The timestamp header *)

(** C1.  [CreateDeposit("D1")] while the clock advances between two
    readings: the request carries the first reading in X-Timestamp and a
    signature over the second one, which is not the signature of the
    timestamp that is sent. *)
Theorem CreateDeposit_sends_another_timestamp_than_it_signs :
  let w0 := Scenario.start Scenario.ticking Scenario.accepts in
  let w1 := snd (CreateDeposit Scenario.shop (Str "D1") Undefined Undefined Undefined w0) in
  map req_data (requests w1) = [Some (Object Scenario.deposit_params)]
  /\ map (fun r => Get "X-Timestamp" (req_headers r)) (requests w1) =
     [Number (of_Z 1700000000000)]
  /\ map (fun r => Get "X-Signature" (req_headers r)) (requests w1) =
     [Str (Scenario.signature_at Scenario.deposit_params 1700000000001)]
  /\ Scenario.signature_at Scenario.deposit_params 1700000000001 <>
     Scenario.signature_at Scenario.deposit_params 1700000000000.
Proof.
  split; [vm_compute; reflexivity|].
  split; [vm_compute; reflexivity|].
  split; [vm_compute; reflexivity|].
  vm_compute. discriminate.
Qed.

(** ** Calls that are not signed *)

(** C2.  [GetProjectBalance] never computes a timestamp or a signature: it
    sends the header slots as they stand.  The first call of a new client
    carries neither header, and after [CreateDeposit] it carries the pair of
    that earlier call. *)
Theorem GetProjectBalance_is_sent_unsigned :
  (forall this w,
      let w' := snd (GetProjectBalance this w) in
      requests w' = requests w ++ [Request GET "project/balance" (headers w) None None]
      /\ headers w' = headers w /\ reads w' = reads w)
  /\ (let w0 := Scenario.blank Scenario.ticking Scenario.accepts in
      let w1 := Scenario.start Scenario.ticking Scenario.accepts in
      constructor (Str "KEY") (Str "s3cr3t") Undefined w0 = (Normal Scenario.shop, w1)
      /\ requests (snd (GetProjectBalance Scenario.shop w1)) =
         [Request GET "project/balance" [("apiKey", Str "KEY")] None None])
  /\ (let w0 := Scenario.start Scenario.ticking Scenario.accepts in
      let w1 := snd (CreateDeposit Scenario.shop (Str "D1") Undefined Undefined Undefined w0) in
      let w2 := snd (GetProjectBalance Scenario.shop w1) in
      let pair := [("apiKey", Str "KEY");
                   ("X-Timestamp", Number (of_Z 1700000000000));
                   ("X-Signature",
                    Str (Scenario.signature_at Scenario.deposit_params 1700000000001))] in
      map req_url (requests w2) = ["deposit"; "project/balance"]
      /\ map req_headers (requests w2) = [pair; pair]
      /\ reads w2 = reads w1).
Proof.
  split; [|split].
  - intros this w w'. subst w'. unfold GetProjectBalance.
    pose proof (client_request_without_params this GET "project/balance" None w) as H.
    cbv [bind client_get]. cbv zeta in H.
    destruct (client_request this GET "project/balance" None None w) as [[r|e] w1];
      cbn in *; intuition.
  - split; reflexivity.
  - split; [vm_compute; reflexivity|].
    split; vm_compute; reflexivity.
Qed.

(** ** Required arguments *)

Lemma bind_throw {A B : Type} (m : M A) (k : A -> M B) (e : error) (w w' : world) :
  m w = (Throw e, w') -> bind m k w = (Throw e, w').
Proof. intros H. unfold bind. now rewrite H. Qed.

Lemma identifier_unbound (scope : props) (name : string) (w : world) :
  lookup name scope = None ->
  identifier scope name w = (Throw (ReferenceError (name ++ " is not defined")), w).
Proof. intros H. unfold identifier. now rewrite H. Qed.

Lemma constructor_requires_apiKey (apiKey secretKey options : value) (w : world) :
  ToBoolean apiKey = false ->
  constructor apiKey secretKey options w = (Throw (Error "API key is required"), w).
Proof. intros H. unfold constructor. now rewrite H. Qed.

Lemma constructor_requires_secretKey (apiKey secretKey options : value) (w : world) :
  ToBoolean apiKey = true -> ToBoolean secretKey = false ->
  constructor apiKey secretKey options w = (Throw (Error "Secret Key is required"), w).
Proof. intros H1 H2. unfold constructor. now rewrite H1, H2. Qed.

Lemma CreateDeposit_requires_deposit_id
    (this : client) (deposit_id steam_id trade_url min_amount : value) (w : world) :
  ToBoolean deposit_id = false ->
  CreateDeposit this deposit_id steam_id trade_url min_amount w =
  (Throw (Error "Deposit ID is required"), w).
Proof. intros H. unfold CreateDeposit. now rewrite H. Qed.

Lemma CreateOffer_requires_deposit_id
    (this : client) (deposit_id steam_id app_id trade_url item_array : value) (w : world) :
  ToBoolean deposit_id = false ->
  CreateOffer this deposit_id steam_id app_id trade_url item_array w =
  (Throw (Error "Deposit ID is required"), w).
Proof. intros H. unfold CreateOffer. now rewrite H. Qed.

Lemma GetStatusDeposit_requires_trade_id (this : client) (trade_id : value) (w : world) :
  ToBoolean trade_id = false ->
  GetStatusDeposit this trade_id w = (Throw (Error "Trade ID is required"), w).
Proof. intros H. unfold GetStatusDeposit. now rewrite H. Qed.

Lemma GetSkinsDeposit_requires_trade_id (this : client) (trade_id : value) (w : world) :
  ToBoolean trade_id = false ->
  GetSkinsDeposit this trade_id w = (Throw (Error "Trade ID is required"), w).
Proof. intros H. unfold GetSkinsDeposit. now rewrite H. Qed.

Lemma GetClientSteamInvetory_requires_steam_id
    (this : client) (steam_id refresh app_id : value) (w : world) :
  ToBoolean steam_id = false ->
  GetClientSteamInvetory this steam_id refresh app_id w =
  (Throw (Error "SteamID is required"), w).
Proof. intros H. unfold GetClientSteamInvetory. now rewrite H. Qed.

(** C9.  [BuySkin] reads [trade_id], which nothing declares: whatever the
    arguments, the call is rejected with a reference error, and it touches
    neither the headers nor the transport. *)
Theorem BuySkin_always_throws
    (this : client)
    (internal_id partner partner_token app_id max_price item_id full_name : value)
    (w : world) :
  BuySkin this internal_id partner partner_token app_id max_price item_id full_name w
  = (Throw (ReferenceError "trade_id is not defined"), w).
Proof.
  unfold BuySkin. apply bind_throw.
  apply (identifier_unbound _ "trade_id").
  (* none of the seven parameters is called trade_id *)
  reflexivity.
Qed.

(** C8.  [BuySkin] without its identifier: the call is rejected before any
    request, but with the reference error of its guard, not with the error
    the guard was written to throw. *)
Theorem BuySkin_without_identifier (this : client) (w : world) :
  let call := BuySkin this Undefined (Str "76561198000000000") (Str "token")
                Undefined Undefined Undefined Undefined w in
  fst call = Throw (ReferenceError "trade_id is not defined")
  /\ fst call <> Throw (Error "Trade ID is required")
  /\ snd call = w.
Proof. cbn. repeat split. discriminate. Qed.

(** ** The composite operation *)

Lemma GetV_world (v : value) (k : string) (w : world) : snd (GetV v k w) = w.
Proof. destruct v; reflexivity. Qed.

(** C3.  [CreateOffer] never sends its second request: after the first
    exchange it signs the trade parameters and then reads [params], which
    nothing declares.  The call is always rejected, and at most the deposit
    request has gone out. *)
Theorem CreateOffer_never_sends_the_trade
    (this : client) (deposit_id steam_id app_id trade_url item_array : value)
    (w : world) :
  let call := CreateOffer this deposit_id steam_id app_id trade_url item_array w in
  (exists e, fst call = Throw e)
  /\ (requests (snd call) = requests w
      \/ exists hs,
           requests (snd call) =
           requests w ++
           [Request POST "deposit" hs
              (Some (Object [("deposit_id", deposit_id);
                             ("steam_id", default_to Null steam_id)])) None]).
Proof.
  cbv zeta. unfold CreateOffer.
  destruct (ToBoolean deposit_id); cbn [negb];
    [|cbn; split; [eexists; reflexivity | now left]].
  set (DepositParams := [("deposit_id", deposit_id); ("steam_id", default_to Null steam_id)]).
  cbv [bind].
  pose proof (sign_headers_requests this DepositParams w) as [Hs1 _].
  destruct (sign_headers this DepositParams w) as [[[]|e1] w1]; cbn [fst snd] in *.
  2: { split; [eexists; reflexivity | now left]. }
  pose proof (client_request_without_params this POST "deposit"
                (Some (Object DepositParams)) w1) as [Hp _].
  unfold client_post.
  destruct (client_request this POST "deposit" (Some (Object DepositParams)) None w1)
    as [[r|e2] w2]; cbn [fst snd] in *.
  2: { split; [eexists; reflexivity|]. right. exists (headers w1). now rewrite Hp, Hs1. }
  pose proof (GetV_world (data r) "trade_id" w2) as Hg.
  destruct (GetV (data r) "trade_id" w2) as [[trade_id|e3] w3]; cbn [fst snd] in *;
    subst w3.
  2: { split; [eexists; reflexivity|]. right. exists (headers w1). now rewrite Hp, Hs1. }
  match goal with
  | |- context [sign_headers this ?p w2] =>
      pose proof (sign_headers_requests this p w2) as [Hs2 _];
      destruct (sign_headers this p w2) as [[[]|e4] w4]
  end; cbn [fst snd] in *; cbn;
    (split; [eexists; reflexivity|]; right; exists (headers w1);
     now rewrite Hs2, Hp, Hs1).
Qed.

(** With valid arguments and a first response that carries a trade
    identifier: one request, the headers of the trade left in the slots,
    and the reference error. *)
Example CreateOffer_accepted_deposit :
  let w0 := Scenario.start Scenario.ticking Scenario.accepts in
  let call := CreateOffer Scenario.shop (Str "D1") Undefined Undefined Undefined Undefined w0 in
  fst call = Throw (ReferenceError "params is not defined")
  /\ map req_data (requests (snd call)) =
     [Some (Object [("deposit_id", Str "D1"); ("steam_id", Null)])]
  /\ headers (snd call) =
     [("apiKey", Str "KEY");
      ("X-Timestamp", Number (of_Z 1700000000002));
      ("X-Signature", Str (Scenario.signature_at Scenario.offer_params 1700000000003))].
Proof.
  split; [vm_compute; reflexivity|].
  split; vm_compute; reflexivity.
Qed.

(** ** Failures of the transport *)




(** The 422 of the specification, seen through [GetStatusDeposit]. *)
Example bad_amount_is_a_server_error :
  fst (GetStatusDeposit Scenario.shop (Str "T1")
         (Scenario.start Scenario.frozen Scenario.refuses)) =
  Throw (Spec.raised (Spec.ServerError 422 Scenario.bad_amount)).
Proof. vm_compute. reflexivity. Qed.

(** ** More on the canonical string *)

Lemma canonical_plain (data : props) :
  well_formed data ->
  Forall (fun e => plain_key (fst e) = true) data ->
  canonical data = Spec.canonical data.
Proof.
  intros Hwf Hp. rewrite canonical_eq, sortedData_eq by exact Hwf.
  unfold Spec.canonical, Object_values, Object_entries.
  rewrite (plain_own_entries data Hp), (plain_sort data Hwf Hp).
  rewrite plain_own_entries; [reflexivity|].
  eapply Permutation_Forall; [apply Permutation_sym, sort_perm | exact Hp].
Qed.








(** Where two entries do read the same, the order of writing shows. *)
Example same_text_entries_depend_on_order :
  canonical [("a", Str "b,c"); ("a,b", Str "c")] = "b,cc"
  /\ canonical [("a,b", Str "c"); ("a", Str "b,c")] = "cb,c".
Proof. split; reflexivity. Qed.

(** X3.  The values are appended without a delimiter: between two plain
    keys (ASCII, after the comma, no array index) in ascending order,
    moving text from the end of the first value to the beginning of the
    second leaves the canonical string, and so the signature, unchanged. *)
Theorem values_are_not_delimited (k1 k2 s t u : string) :
  plain_key k1 = true -> plain_key k2 = true ->
  (k1 <? k2)%string = true ->
  canonical [(k1, Str (s ++ t)); (k2, Str u)] =
  canonical [(k1, Str s); (k2, Str (t ++ u))].
Proof.
  intros P1 P2 Hlt.
  assert (Hne : k2 <> k1).
  { intros ->. now rewrite ltb_irrefl in Hlt. }
  assert (Hwf : forall v1 v2 : value, well_formed [(k1, v1); (k2, v2)]).
  { intros v1 v2. unfold well_formed. cbn.
    repeat constructor; cbn; intuition. }
  rewrite !canonical_plain by (try apply Hwf; repeat constructor; assumption).
  unfold Spec.canonical. cbn [sort insert]. unfold Spec.key_lt.
  cbn [fst]. rewrite (ltb_asym _ _ Hlt). cbn.
  now rewrite append_assoc.
Qed.

Lemma values_are_not_delimited_witness :
  plain_key "a" = true /\ plain_key "b" = true /\ ("a" <? "b")%string = true
  /\ canonical [("a", Str "12"); ("b", Str "3")] =
     canonical [("a", Str "1"); ("b", Str "23")].
Proof.
  split; [reflexivity|]. split; [reflexivity|]. split; [reflexivity|].
  exact (values_are_not_delimited "a" "b" "1" "2" "3" eq_refl eq_refl eq_refl).
Defined.

(** ** Letter case *)

Lemma lower_idem (c : ascii) : lower (lower c) = lower c.
Proof. destruct c as [[] [] [] [] [] [] [] []]; reflexivity. Qed.

Lemma lower_not_upper (c : ascii) : upper_case (lower c) = false.
Proof. destruct c as [[] [] [] [] [] [] [] []]; reflexivity. Qed.

Lemma toLowerCase_idem (s : string) : toLowerCase (toLowerCase s) = toLowerCase s.
Proof.
  induction s as [|c s IH]; simpl; [reflexivity|].
  now rewrite lower_idem, IH.
Qed.

Lemma toLowerCase_app (s t : string) :
  toLowerCase (s ++ t) = (toLowerCase s ++ toLowerCase t)%string.
Proof. induction s as [|c s IH]; simpl; [reflexivity | now rewrite IH]. Qed.

Lemma toLowerCase_concat (l : list string) :
  toLowerCase (String.concat "" l) = String.concat "" (map toLowerCase l).
Proof.
  induction l as [|x l IH]; [reflexivity|].
  cbn [map]. now rewrite !concat_empty_cons, toLowerCase_app, IH.
Qed.

Lemma insert_map {A B : Type} (f : A -> B) (lt : A -> A -> bool)
    (lt' : B -> B -> bool) (x : A) (l : list A) :
  (forall a b, lt' (f a) (f b) = lt a b) ->
  insert lt' (f x) (map f l) = map f (insert lt x l).
Proof.
  intros H. induction l as [|y l IH]; simpl; [reflexivity|].
  rewrite H. destruct (lt y x); simpl; [now rewrite IH | reflexivity].
Qed.

Lemma sort_map {A B : Type} (f : A -> B) (lt : A -> A -> bool)
    (lt' : B -> B -> bool) (l : list A) :
  (forall a b, lt' (f a) (f b) = lt a b) ->
  sort lt' (map f l) = map f (sort lt l).
Proof.
  intros H. induction l as [|x l IH]; simpl; [reflexivity|].
  now rewrite IH, (insert_map f lt lt').
Qed.

Lemma lower_values_keys (data : props) : map fst (lower_values data) = map fst data.
Proof. unfold lower_values. rewrite map_map. reflexivity. Qed.

Lemma lower_text (v : value) :
  toLowerCase (Spec.text (lower_value v)) = toLowerCase (Spec.text v).
Proof. destruct v; try reflexivity. simpl. apply toLowerCase_idem. Qed.

Lemma lower_canonical (data : props) :
  toLowerCase (Spec.canonical (lower_values data)) = toLowerCase (Spec.canonical data).
Proof.
  unfold Spec.canonical, lower_values.
  rewrite (sort_map (fun e => (fst e, lower_value (snd e))) Spec.key_lt Spec.key_lt)
    by reflexivity.
  rewrite !toLowerCase_concat, !map_map.
  rewrite (map_ext (fun e : string * value => snd (fst e, lower_value (snd e)))
                   (fun e => lower_value (snd e))) by reflexivity.
  rewrite <- (map_map snd lower_value).
  rewrite filter_map_swap, map_map.
  rewrite (filter_ext (fun v => Spec.kept (lower_value v)) Spec.kept)
    by (intros []; reflexivity).
  apply f_equal, map_ext. intros v. apply lower_text.
Qed.

(** X4.  The case of the letters A to Z in a string value is not signed:
    with its string values put in lower case, a mapping with plain keys
    and ASCII string values gives the same signed material for every
    timestamp. *)
Theorem letter_case_is_not_signed (data : props) (timestamp : Z) :
  well_formed data ->
  Forall (fun e => plain_key (fst e) = true) data ->
  Forall (fun e => ascii_value (snd e) = true) data ->
  signed_material (lower_values data) timestamp = signed_material data timestamp.
Proof.
  intros Hwf Hp _. unfold signed_material.
  rewrite !toLowerCase_app. f_equal.
  rewrite !canonical_plain; [apply lower_canonical | assumption | assumption | |].
  - unfold well_formed. now rewrite lower_values_keys.
  - unfold lower_values. rewrite Forall_map. exact Hp.
Qed.

Lemma letter_case_is_not_signed_witness :
  let data := [("trade_url", Str "HTTPS://Steam/ABC")] in
  well_formed data
  /\ Forall (fun e => plain_key (fst e) = true) data
  /\ Forall (fun e => ascii_value (snd e) = true) data
  /\ signed_material [("trade_url", Str "https://steam/abc")] 1700000000000 =
     signed_material data 1700000000000.
Proof.
  assert (H1 : well_formed [("trade_url", Str "HTTPS://Steam/ABC")]).
  { unfold well_formed. cbn. repeat constructor; cbn; intuition. }
  assert (H2 : Forall (fun e => plain_key (fst e) = true)
                 [("trade_url", Str "HTTPS://Steam/ABC")]) by (repeat constructor).
  assert (H3 : Forall (fun e : string * value => ascii_value (snd e) = true)
                 [("trade_url", Str "HTTPS://Steam/ABC")]) by (repeat constructor).
  split; [exact H1|]. split; [exact H2|]. split; [exact H3|].
  exact (letter_case_is_not_signed [("trade_url", Str "HTTPS://Steam/ABC")]
           1700000000000 H1 H2 H3).
Defined.

(** ** The timestamp in the signed material *)











(** ** The form of the signature *)













(** ** What a request leaves behind *)

Lemma client_request_settles
    (this : client) (key : string) (m : method) (url : string)
    (body : option value) (params : option props) (w : world) :
  secretKey this = Str key ->
  fst (client_request this m url body params w) =
  Spec.settle (network w (List.length (requests w))).
Proof.
  intros Hk. unfold client_request, paramsSerializer.
  cbv [bind catch get_headers ret].
  destruct params as [p|]; [rewrite (sign_headers_eq this p w key Hk)|];
    cbv [transmit on_rejected throw Spec.settle Spec.raised];
    cbn [clock reads headers requests network];
    destruct (network w (List.length (requests w))) as [r|e|e];
    try destruct ((200 <=? status r) && (status r <? 300)); reflexivity.
Qed.







(** ** The signed endpoints *)

(** Signing, sending, and returning [f] of the response. *)
Lemma signed_exchange
    (this : client) (key : string) (m : method) (url : string) (body : value)
    (params : props) (f : response -> value) (w : world) :
  secretKey this = Str key ->
  let run := (sign_headers this params ;;;
              r <- client_request this m url (Some body) None ;; ret (f r)) w in
  fst run = match Spec.settle (network w (List.length (requests w))) with
            | Normal r => Normal (f r)
            | Throw e => Throw e
            end
  /\ requests (snd run) =
     requests w ++ [Request m url (signed_slots key params w) (Some body) None]
  /\ headers (snd run) = signed_slots key params w
  /\ reads (snd run) = S (S (reads w)).
Proof.
  intros Hk. cbv zeta. cbv [bind ret].
  rewrite (sign_headers_eq this params w key Hk).
  match goal with
  | |- context [client_request this m url (Some body) None ?w1] =>
      pose proof (client_request_settles this key m url (Some body) None w1 Hk) as Hs;
      pose proof (client_request_without_params this m url (Some body) w1)
        as (Hr & Hh & Hc & _);
      destruct (client_request this m url (Some body) None w1) as [[r|e] w2]
  end; cbn [fst snd clock reads headers requests network] in *;
    rewrite <- Hs; repeat split; assumption.
Qed.





(** X11.  [SetProjectRate] has no guard: whatever the rate, a missing one
    included, it signs and sends one PATCH to project/balance with the rate
    as body, and resolves with undefined on a 2xx response, the payload
    being dropped. *)
Theorem SetProjectRate_sends_any_rate
    (this : client) (key : string) (coin_rate : value) (w : world) :
  secretKey this = Str key ->
  let call := SetProjectRate this coin_rate w in
  fst call = match Spec.settle (network w (List.length (requests w))) with
             | Normal _ => Normal Undefined
             | Throw e => Throw e
             end
  /\ requests (snd call) =
     requests w ++
     [Request PATCH "project/balance"
        (signed_slots key [("coin_rate", coin_rate)] w)
        (Some (Object [("coin_rate", coin_rate)])) None].
Proof.
  intros Hk call. subst call. unfold SetProjectRate, client_patch.
  destruct (signed_exchange this key PATCH "project/balance"
              (Object [("coin_rate", coin_rate)]) [("coin_rate", coin_rate)]
              (fun _ => Undefined) w Hk) as (H1 & H2 & _).
  split; [exact H1 | exact H2].
Qed.

Lemma SetProjectRate_sends_any_rate_witness :
  let w := Scenario.start Scenario.ticking Scenario.accepts in
  secretKey Scenario.shop = Str "s3cr3t"
  /\ fst (SetProjectRate Scenario.shop Undefined w) = Normal Undefined
  /\ map req_data (requests (snd (SetProjectRate Scenario.shop Undefined w))) =
     [Some (Object [("coin_rate", Undefined)])].
Proof.
  split; [reflexivity|].
  destruct (SetProjectRate_sends_any_rate Scenario.shop "s3cr3t" Undefined
              (Scenario.start Scenario.ticking Scenario.accepts) eq_refl)
    as [H1 H2].
  split; [exact H1|]. cbv zeta. rewrite H2. reflexivity.
Defined.




(** ** What the constructor establishes *)

Lemma or_else_truthy (a b : value) : ToBoolean b = true -> ToBoolean (or_else a b) = true.
Proof. intros H. unfold or_else. destruct (ToBoolean a) eqn:E; assumption. Qed.

(** X13.  A constructed client has both keys, a base URL, a game, a version
    and a timeout that are all truthy: an option given as 0, the empty
    string or null is replaced by its default.  Constructing reads no
    clock and sends nothing, and leaves the API key as the only header. *)
Theorem constructor_establishes
    (apiKey0 secretKey0 options : value) (w w' : world) (this : client) :
  constructor apiKey0 secretKey0 options w = (Normal this, w') ->
  (apiKey this = apiKey0 /\ secretKey this = secretKey0)
  /\ (ToBoolean (apiKey this) = true /\ ToBoolean (secretKey this) = true
      /\ ToBoolean (baseURL this) = true /\ ToBoolean (priorityGame this) = true
      /\ ToBoolean (version this) = true /\ ToBoolean (timeout this) = true)
  /\ headers w' = [("apiKey", apiKey0)]
  /\ requests w' = requests w /\ reads w' = reads w.
Proof.
  unfold constructor.
  destruct (ToBoolean apiKey0) eqn:Ha; cbn [negb]; [|discriminate].
  destruct (ToBoolean secretKey0) eqn:Hs; cbn [negb]; [|discriminate].
  destruct options; cbn; intros [= <- <-]; cbn;
    repeat split; try assumption; apply or_else_truthy; reflexivity.
Qed.

Lemma constructor_establishes_witness :
  let w := Scenario.blank Scenario.ticking Scenario.accepts in
  let options := Object [("timeout", Number (of_Z 0)); ("versionApi", Str "v2")] in
  let this :=
    Client (Str "KEY") (Str "s3cr3t") (Str "https://skinvend.io") (Str "") (Str "")
           (Str "") (Number (of_Z 730)) (Str "v2") (Number (of_Z 10000)) in
  constructor (Str "KEY") (Str "s3cr3t") options w =
  (Normal this, Scenario.start Scenario.ticking Scenario.accepts)
  /\ ToBoolean (timeout this) = true
  /\ headers (Scenario.start Scenario.ticking Scenario.accepts) = [("apiKey", Str "KEY")].
Proof.
  assert (H : constructor (Str "KEY") (Str "s3cr3t")
                (Object [("timeout", Number (of_Z 0)); ("versionApi", Str "v2")])
                (Scenario.blank Scenario.ticking Scenario.accepts) =
              (Normal (Client (Str "KEY") (Str "s3cr3t") (Str "https://skinvend.io")
                         (Str "") (Str "") (Str "") (Number (of_Z 730)) (Str "v2")
                         (Number (of_Z 10000))),
               Scenario.start Scenario.ticking Scenario.accepts))
    by reflexivity.
  split; [exact H|].
  destruct (constructor_establishes _ _ _ _ _ _ H) as (_ & Ht & Hh & _).
  split; [apply Ht | exact Hh].
Defined.

(** ** Invariants of a run of calls *)

Section Keeping.
Context (I : world -> Prop).

Lemma keeps_ret {A : Type} (a : A) : keeps I (ret a).
Proof. intros w H. exact H. Qed.

Lemma keeps_throw {A : Type} (e : error) : keeps I (@throw A e).
Proof. intros w H. exact H. Qed.

Lemma keeps_bind {A B : Type} (m : M A) (k : A -> M B) :
  keeps I m -> (forall a, keeps I (k a)) -> keeps I (bind m k).
Proof.
  intros Hm Hk w H. unfold bind. specialize (Hm w H).
  destruct (m w) as [[a|e] w1]; cbn [snd] in *; [now apply Hk | exact Hm].
Qed.

Lemma keeps_catch {A : Type} (m : M A) (h : error -> M A) :
  keeps I m -> (forall e, keeps I (h e)) -> keeps I (catch m h).
Proof.
  intros Hm Hh w H. unfold catch. specialize (Hm w H).
  destruct (m w) as [[a|e] w1]; cbn [snd] in *; [exact Hm | now apply Hh].
Qed.

Lemma keeps_if {A : Type} (b : bool) (m1 m2 : M A) :
  keeps I m1 -> keeps I m2 -> keeps I (if b then m1 else m2).
Proof. destruct b; auto. Qed.

Lemma keeps_on_rejected {A : Type} (e : error) : keeps I (@on_rejected A e).
Proof.
  destruct e as [m|m|m|[[r|] [] m]]; cbn [on_rejected]; apply keeps_throw.
Qed.
End Keeping.

Section Keyed.
Context (base : list request) (v : value).

Lemma keyed_Date_now : keeps (keyed base v) Date_now.
Proof. intros w H. exact H. Qed.

Lemma keyed_GetV (x : value) (k : string) : keeps (keyed base v) (GetV x k).
Proof. destruct x; cbn [GetV]; (apply keeps_ret || apply keeps_throw). Qed.

Lemma keyed_identifier (scope : props) (name : string) :
  keeps (keyed base v) (identifier scope name).
Proof.
  unfold identifier. destruct (lookup name scope);
    (apply keeps_ret || apply keeps_throw).
Qed.

Lemma keyed_Buffer_from (x : value) : keeps (keyed base v) (Buffer_from x).
Proof. destruct x; cbn [Buffer_from]; (apply keeps_ret || apply keeps_throw). Qed.

(** Writing another slot than the one of the API key. *)
Lemma keyed_set_header (name : string) (x : value) :
  name <> "apiKey" -> keeps (keyed base v) (set_header name x).
Proof.
  intros Hne w [Hk Hr]. split; [|exact Hr].
  cbn [set_header snd headers]. unfold Get.
  rewrite lookup_define_other by congruence. exact Hk.
Qed.

Lemma keyed_generateSignature (this : client) (data : props) :
  keeps (keyed base v) (generateSignature this data).
Proof.
  unfold generateSignature.
  apply keeps_bind; [apply keyed_Date_now | intros t].
  apply keeps_bind; [apply keyed_Buffer_from | intros key].
  apply keeps_bind; [apply keyed_Buffer_from | intros msg].
  apply keeps_ret.
Qed.

Lemma keyed_sign_headers (this : client) (params : props) :
  keeps (keyed base v) (sign_headers this params).
Proof.
  unfold sign_headers.
  apply keeps_bind; [apply keyed_Date_now | intros t].
  apply keeps_bind; [apply keyed_set_header; discriminate | intros _].
  apply keeps_bind; [apply keyed_generateSignature | intros s].
  apply keyed_set_header; discriminate.
Qed.

Lemma keyed_transmit (r : request) : carries v r -> keeps (keyed base v) (transmit r).
Proof.
  intros Hc w [Hk (new & Hr & Hn)].
  assert (K : keyed base v
                (World (clock w) (reads w) (headers w) (requests w ++ [r]) (network w))).
  { split; [exact Hk|]. exists (new ++ [r]). cbn [requests]. split.
    - now rewrite Hr, app_assoc.
    - apply Forall_app. split; [exact Hn | now constructor]. }
  unfold transmit.
  destruct (network w (List.length (requests w))) as [resp|m|m];
    [destruct ((200 <=? status resp) && (status resp <? 300))|..]; exact K.
Qed.

(** The request copies the slots, the one of the API key among them. *)
Lemma keyed_client_request (this : client) (m : method) (url : string)
    (body : option value) (params : option props) :
  keeps (keyed base v) (client_request this m url body params).
Proof.
  intros w H. unfold client_request, bind at 1, get_headers.
  apply keeps_catch; [|apply keeps_on_rejected|exact H].
  apply keeps_bind.
  - destruct params; [apply keyed_sign_headers | apply keeps_ret].
  - intros _. apply keyed_transmit. exact (proj1 H).
Qed.

Lemma keyed_client_get (this : client) (url : string) (params : option props) :
  keeps (keyed base v) (r <- client_get this url params ;; ret (data r)).
Proof.
  apply keeps_bind; [apply keyed_client_request | intros r; apply keeps_ret].
Qed.
End Keyed.

Ltac keeping :=
  repeat first
    [ apply keeps_if
    | apply keeps_throw
    | apply keeps_ret
    | apply keyed_client_get
    | apply keyed_client_request
    | apply keyed_sign_headers
    | apply keyed_GetV
    | apply keyed_identifier
    | apply keeps_bind; [|intros ?] ].

Lemma keyed_invoke (base : list request) (v : value) (this : client) (c : call) :
  keeps (keyed base v) (invoke this c).
Proof.
  destruct c; cbn [invoke];
    unfold CreateDeposit, CreateOffer, GetStatusDeposit, GetHistoryDeposits,
      GetSkinsDeposit, GetProjectBalance, SetProjectRate, GetClientSteamInvetory,
      SearchSkins, CheckBotStatus, BuySkin, PurchaseStatus, PurchaseHistory,
      client_post, client_patch;
    cbv zeta; keeping.
Qed.

Lemma keyed_session (base : list request) (v : value) (this : client)
    (cs : list call) (w : world) :
  keyed base v w -> keyed base v (session this cs w).
Proof.
  revert w. induction cs as [|c cs IH]; intros w H; cbn [session]; [exact H|].
  apply IH, keyed_invoke, H.
Qed.

(** X14.  The API key is on every request: however many endpoints are
    called, in whatever order and with whatever arguments and outcomes,
    each request handed to the transport carries the API key that stands in
    the header slot, and no call touches that slot or the requests already
    sent. *)
Theorem every_request_carries_the_api_key
    (this : client) (cs : list call) (w : world) :
  let v := Get "apiKey" (headers w) in
  let w' := session this cs w in
  Get "apiKey" (headers w') = v
  /\ exists new, requests w' = requests w ++ new /\ Forall (carries v) new.
Proof.
  cbv zeta. apply (keyed_session (requests w) _ this cs w).
  split; [reflexivity|]. exists []. split; [now rewrite app_nil_r | constructor].
Qed.

Section Sending.

Lemma sends_nothing {A : Type} (m : M A) (n : nat) :
  (forall w, requests (snd (m w)) = requests w) -> sends n m.
Proof.
  intros H w. exists []. rewrite app_nil_r. split; [apply H | cbn; lia].
Qed.

Lemma sends_ret {A : Type} (a : A) (n : nat) : sends n (ret a).
Proof. now apply sends_nothing. Qed.

Lemma sends_throw {A : Type} (e : error) (n : nat) : sends n (@throw A e).
Proof. now apply sends_nothing. Qed.

Lemma sends_bind {A B : Type} (m : M A) (k : A -> M B) (n1 n2 : nat) :
  sends n1 m -> (forall a, sends n2 (k a)) -> sends (n1 + n2) (bind m k).
Proof.
  intros Hm Hk w. unfold bind. destruct (Hm w) as (new1 & E1 & L1).
  destruct (m w) as [[a|e] w1]; cbn [snd] in *.
  - destruct (Hk a w1) as (new2 & E2 & L2).
    exists (new1 ++ new2). rewrite E2, E1, app_assoc, length_app.
    split; [reflexivity | lia].
  - exists new1. split; [exact E1 | lia].
Qed.

Lemma sends_bind_l {A B : Type} (m : M A) (k : A -> M B) (n : nat) :
  sends 0 m -> (forall a, sends n (k a)) -> sends n (bind m k).
Proof. intros Hm Hk. apply (sends_bind m k 0 n Hm Hk). Qed.

Lemma sends_bind_r {A B : Type} (m : M A) (k : A -> M B) (n : nat) :
  sends n m -> (forall a, sends 0 (k a)) -> sends n (bind m k).
Proof.
  intros Hm Hk. rewrite <- (Nat.add_0_r n). apply (sends_bind m k n 0 Hm Hk).
Qed.

Lemma sends_catch {A : Type} (m : M A) (h : error -> M A) (n : nat) :
  sends n m -> (forall e, sends 0 (h e)) -> sends n (catch m h).
Proof.
  intros Hm Hh w. unfold catch. destruct (Hm w) as (new1 & E1 & L1).
  destruct (m w) as [[a|e] w1]; cbn [snd] in *.
  - exists new1. split; assumption.
  - destruct (Hh e w1) as (new2 & E2 & L2).
    exists (new1 ++ new2). rewrite E2, E1, app_assoc, length_app.
    split; [reflexivity | lia].
Qed.

Lemma sends_if {A : Type} (b : bool) (m1 m2 : M A) (n : nat) :
  sends n m1 -> sends n m2 -> sends n (if b then m1 else m2).
Proof. destruct b; auto. Qed.

Lemma sends_GetV (x : value) (k : string) (n : nat) : sends n (GetV x k).
Proof. destruct x; cbn [GetV]; (apply sends_ret || apply sends_throw). Qed.

Lemma sends_sign_headers (this : client) (params : props) (n : nat) :
  sends n (sign_headers this params).
Proof. apply sends_nothing. intros w. apply sign_headers_requests. Qed.

(** What follows the reading of a name that nothing binds is not run. *)
Lemma sends_unbound {B : Type} (scope : props) (name : string)
    (k : value -> M B) (n : nat) :
  lookup name scope = None -> sends n (bind (identifier scope name) k).
Proof.
  intros H. apply sends_nothing. intros w.
  now rewrite (bind_throw _ _ _ w w (identifier_unbound scope name w H)).
Qed.

Lemma sends_on_rejected {A : Type} (e : error) : sends 0 (@on_rejected A e).
Proof.
  destruct e as [m|m|m|[[r|] [] m]]; cbn [on_rejected]; apply sends_throw.
Qed.

Lemma sends_transmit (r : request) : sends 1 (transmit r).
Proof.
  intros w. exists [r]. split; [|cbn; lia]. unfold transmit.
  destruct (network w (List.length (requests w))) as [resp|m|m];
    [destruct ((200 <=? status resp) && (status resp <? 300))|..]; reflexivity.
Qed.

Lemma sends_client_request (this : client) (m : method) (url : string)
    (body : option value) (params : option props) :
  sends 1 (client_request this m url body params).
Proof.
  intros w. unfold client_request, bind at 1, get_headers.
  apply sends_catch; [|apply sends_on_rejected].
  apply sends_bind_l; [|intros _; apply sends_transmit].
  destruct params; [apply sends_sign_headers | apply sends_ret].
Qed.
End Sending.

Ltac sending :=
  repeat first
    [ apply sends_if
    | apply sends_throw
    | apply sends_ret
    | apply sends_client_request
    | apply sends_sign_headers
    | apply sends_GetV
    | apply sends_unbound; reflexivity
    | apply sends_bind_l; [solve [apply sends_sign_headers | apply sends_GetV]|intros ?]
    | apply sends_bind_r; [apply sends_client_request|intros ?] ].

Lemma invoke_sends_at_most_one (this : client) (c : call) : sends 1 (invoke this c).
Proof.
  destruct c; cbn [invoke];
    unfold CreateDeposit, CreateOffer, GetStatusDeposit, GetHistoryDeposits,
      GetSkinsDeposit, GetProjectBalance, SetProjectRate, GetClientSteamInvetory,
      SearchSkins, CheckBotStatus, BuySkin, PurchaseStatus, PurchaseHistory,
      client_get, client_post, client_patch;
    cbv zeta; sending.
Qed.

(** X15.  No endpoint sends more than one request, and none retries: after
    any run of calls the transport has been handed at most one request per
    call, appended to those that were there. *)
Theorem at_most_one_request_per_call (this : client) (cs : list call) (w : world) :
  exists new,
    requests (session this cs w) = requests w ++ new
    /\ (List.length new <= List.length cs)%nat.
Proof.
  revert w. induction cs as [|c cs IH]; intros w; cbn [session].
  - exists []. now rewrite app_nil_r.
  - destruct (invoke_sends_at_most_one this c w) as (new1 & E1 & L1).
    destruct (IH (snd (invoke this c w))) as (new2 & E2 & L2).
    exists (new1 ++ new2). rewrite E2, E1, app_assoc, length_app.
    split; [reflexivity | cbn [List.length]; lia].
Qed.

(** ** The errors of the guards *)

Lemma prefix_append (p s : string) : String.prefix p (p ++ s) = true.
Proof.
  induction p as [|a p IH]; simpl.
  - destruct s; reflexivity.
  - destruct (ascii_dec a a); [exact IH | contradiction].
Qed.

Lemma api_prefix (s : string) :
  String.prefix "SkinVend API Error: " ("SkinVend API Error: " ++ s) = true.
Proof. apply prefix_append. Qed.

Lemma npe_ret {A : Type} (a : A) : no_plain_error (ret a).
Proof. intros w e H. discriminate H. Qed.

Lemma npe_bind {A B : Type} (m : M A) (k : A -> M B) :
  no_plain_error m -> (forall a, no_plain_error (k a)) -> no_plain_error (bind m k).
Proof.
  intros Hm Hk w e. unfold bind. specialize (Hm w).
  destruct (m w) as [[a|e0] w1]; cbn [fst] in *; [apply Hk|].
  intros [= <-]. now apply Hm.
Qed.

Lemma npe_unbound {B : Type} (scope : props) (name : string) (k : value -> M B) :
  lookup name scope = None -> no_plain_error (bind (identifier scope name) k).
Proof.
  intros H w e.
  rewrite (bind_throw _ _ _ w w (identifier_unbound scope name w H)).
  intros [= <-]. exact Logic.I.
Qed.

Lemma npe_GetV (x : value) (k : string) : no_plain_error (GetV x k).
Proof. intros w e. destruct x; cbn; intros [= <-]; exact Logic.I. Qed.

Lemma npe_sign_headers (this : client) (params : props) :
  no_plain_error (sign_headers this params).
Proof.
  intros w e.
  cbv [sign_headers generateSignature bind Date_now set_header ret throw Buffer_from].
  destruct (secretKey this); cbn; intros [= <-]; exact Logic.I.
Qed.

Lemma on_rejected_throws {A : Type} (e : error) (w : world) :
  exists message,
    fst (@on_rejected A e w) = Throw (Error ("SkinVend API Error: " ++ message)).
Proof.
  destruct e as [m|m|m|[[r|] [] m]]; cbn [on_rejected]; eexists; reflexivity.
Qed.

Lemma npe_client_request (this : client) (m : method) (url : string)
    (body : option value) (params : option props) :
  no_plain_error (client_request this m url body params).
Proof.
  intros w e. unfold client_request, bind at 1, get_headers, catch.
  match goal with |- context [match ?x with _ => _ end] => destruct x as [[r|e0] w1] end;
    [discriminate|].
  destruct (@on_rejected_throws response e0 w1) as [message ->].
  intros [= <-]. apply api_prefix.
Qed.

Ltac plain :=
  repeat first
    [ apply npe_ret
    | apply npe_client_request
    | apply npe_sign_headers
    | apply npe_GetV
    | apply npe_unbound; reflexivity
    | apply npe_bind; [|intros ?] ].

Lemma guard_or_interceptor {A : Type} (b : bool) (e0 : error) (body : M A)
    (w : world) (message : string) :
  no_plain_error body ->
  fst ((if b then throw e0 else body) w) = Throw (Error message) ->
  String.prefix "SkinVend API Error: " message = false ->
  snd ((if b then throw e0 else body) w) = w.
Proof.
  intros Hb H Hp. destruct b; [reflexivity|].
  apply Hb in H. cbn in H. congruence.
Qed.

Lemma interceptor_only {A : Type} (body : M A) (w : world) (message : string) :
  no_plain_error body ->
  fst (body w) = Throw (Error message) ->
  String.prefix "SkinVend API Error: " message = false ->
  snd (body w) = w.
Proof. intros Hb H Hp. apply Hb in H. cbn in H. congruence. Qed.

(** X16.  A rejection with a plain error that the interceptor did not make
    comes from a guard, and a guard fails before anything is done: the
    clock was not read, the header slots are as they were, and nothing was
    handed to the transport. *)
Theorem guard_errors_leave_no_trace
    (this : client) (c : call) (w : world) (message : string) :
  fst (invoke this c w) = Throw (Error message) ->
  String.prefix "SkinVend API Error: " message = false ->
  snd (invoke this c w) = w.
Proof.
  destruct c; cbn [invoke];
    unfold CreateDeposit, CreateOffer, GetStatusDeposit, GetHistoryDeposits,
      GetSkinsDeposit, GetProjectBalance, SetProjectRate, GetClientSteamInvetory,
      SearchSkins, CheckBotStatus, BuySkin, PurchaseStatus, PurchaseHistory,
      client_get, client_post, client_patch;
    cbv zeta;
    first [ apply guard_or_interceptor; plain | apply interceptor_only; plain ].
Qed.

Lemma guard_errors_leave_no_trace_witness :
  let w := Scenario.start Scenario.ticking Scenario.accepts in
  let c := CallGetHistoryDeposits (Number (of_Z 0)) (Number (of_Z 1711354019000)) in
  fst (invoke Scenario.shop c w) =
    Throw (Error "Date (start_date | end_date) is required")
  /\ String.prefix "SkinVend API Error: " "Date (start_date | end_date) is required" = false
  /\ snd (invoke Scenario.shop c w) = w.
Proof.
  split; [reflexivity|]. split; [reflexivity|].
  exact (guard_errors_leave_no_trace Scenario.shop
           (CallGetHistoryDeposits (Number (of_Z 0)) (Number (of_Z 1711354019000)))
           (Scenario.start Scenario.ticking Scenario.accepts)
           "Date (start_date | end_date) is required" eq_refl eq_refl).
Defined.

(** ** The default game *)


